(** * The metaserver Application / Agent / Center subsystem of KubeEdge

    A shallow embedding of [package application]: the [Application] request
    object with its reference count and completion signal, the edge-side
    [Agent] (deduplicating table, [Apply], [doApply], [GC]) and the cloud-side
    [Center] ([ProcessApplication], [Response], [Process]); and, after it, of
    the device-twin communication worker ([package dtmanager]), the service
    files of [package util] and the [keadm gettoken] command.

    Conventions of the embedding.
    - A Go [string] is a byte sequence: Rocq's [string] (a list of 8-bit
      characters).  A [[]byte] is a [list byte]; a nil slice and an empty slice
      are both the empty list.
    - [uint64] is a [Z] in [0, 2^64) with the wrap-around written out.
    - [*Application] is a location in a heap of Applications, so that two
      holders of the same pointer see each other's writes.
    - Calls that leave the package (transport, JSON, the resource backend, the
      access review, the listener registry) are taken from a record of the
      environment's answers and are logged, in order, in a trace. *)

From Stdlib Require Import ZArith Lia List String Ascii.
From Stdlib.Strings Require Import Byte.
From stdpp Require Import base option list gmap strings pretty.
Import ListNotations.

Local Open Scope string_scope.
Local Open Scope Z_scope.

(** ** crypto/sha256 and the [%x] verb *)

Module SHA256.

Definition w32 (x : Z) : Z := x mod 2 ^ 32.
Definition add32 (x y : Z) : Z := w32 (x + y).
Definition rotr (n x : Z) : Z :=
  Z.lor (Z.shiftr x n) (w32 (Z.shiftl x (32 - n))).
Definition not32 (x : Z) : Z := Z.lxor x 0xffffffff.

Definition Ch (x y z : Z) : Z := Z.lxor (Z.land x y) (Z.land (not32 x) z).
Definition Maj (x y z : Z) : Z :=
  Z.lxor (Z.lxor (Z.land x y) (Z.land x z)) (Z.land y z).
Definition bsig0 (x : Z) : Z := Z.lxor (Z.lxor (rotr 2 x) (rotr 13 x)) (rotr 22 x).
Definition bsig1 (x : Z) : Z := Z.lxor (Z.lxor (rotr 6 x) (rotr 11 x)) (rotr 25 x).
Definition ssig0 (x : Z) : Z := Z.lxor (Z.lxor (rotr 7 x) (rotr 18 x)) (Z.shiftr x 3).
Definition ssig1 (x : Z) : Z := Z.lxor (Z.lxor (rotr 17 x) (rotr 19 x)) (Z.shiftr x 10).

(** The first [n] primes, by trial division. *)
Fixpoint primes_from (fuel n : nat) (c : Z) (found : list Z) : list Z :=
  match fuel, n with
  | O, _ | _, O => rev found
  | S fuel', S n' =>
      if forallb (fun q => negb (c mod q =? 0)) found
      then primes_from fuel' n' (c + 1) (c :: found)
      else primes_from fuel' n (c + 1) found
  end.
Definition primes (n : nat) : list Z := primes_from 400 n 2 [].

(** The integer cube root of [x], one bit after the other from bit [bits]. *)
Fixpoint cbrt_bits (bits : nat) (x r : Z) : Z :=
  match bits with
  | O => r
  | S b =>
      let r' := r + 2 ^ Z.of_nat b in
      cbrt_bits b x (if r' * r' * r' <=? x then r' else r)
  end.
Definition cbrt (x : Z) : Z := cbrt_bits 40 x 0.

(** The round constants: the first 32 bits of the fractional parts of the cube
    roots of the first 64 primes. *)
Definition K : list Z :=
  Eval vm_compute in map (fun q => w32 (cbrt (q * 2 ^ 96))) (primes 64).

(** The initial hash value: the same of the square roots of the first 8. *)
Definition H0 : list Z :=
  Eval vm_compute in map (fun q => w32 (Z.sqrt (q * 2 ^ 64))) (primes 8).

Definition byteZ (b : byte) : Z := Z.of_N (Byte.to_N b).

(** Big-endian encoding of [x] on [n] bytes. *)
Fixpoint be_bytes (n : nat) (x : Z) : list Z :=
  match n with
  | O => []
  | S n' => (Z.shiftr x (8 * Z.of_nat n')) mod 256 :: be_bytes n' x
  end.

Definition be_word (bs : list Z) : Z :=
  fold_left (fun acc b => acc * 256 + b) bs 0.

(** The message followed by 0x80, zeros up to 56 mod 64, and its length in
    bits on eight bytes. *)
Definition pad (msg : list Z) : list Z :=
  let len := Z.of_nat (length msg) in
  let zeros := Z.to_nat ((55 - len) mod 64) in
  msg ++ [0x80] ++ repeat 0 zeros ++ be_bytes 8 (8 * len).

Fixpoint words (n : nat) (bs : list Z) : list Z :=
  match n with
  | O => []
  | S n' => be_word (firstn 4 bs) :: words n' (skipn 4 bs)
  end.

(** Message schedule; [rev_w] holds W[t-1], W[t-2], ... *)
Fixpoint extend (n : nat) (rev_w : list Z) : list Z :=
  match n with
  | O => rev_w
  | S n' =>
      let wt := add32 (add32 (ssig1 (nth 1 rev_w 0)) (nth 6 rev_w 0))
                      (add32 (ssig0 (nth 14 rev_w 0)) (nth 15 rev_w 0)) in
      extend n' (wt :: rev_w)
  end.

Definition schedule (block : list Z) : list Z :=
  rev (extend 48 (rev (words 16 block))).

Definition round (s : list Z) (kw : Z * Z) : list Z :=
  match s with
  | [a; b; c; d; e; f; g; h] =>
      let t1 := add32 (add32 (add32 h (bsig1 e)) (add32 (Ch e f g) (fst kw))) (snd kw) in
      let t2 := add32 (bsig0 a) (Maj a b c) in
      [add32 t1 t2; a; b; c; add32 d t1; e; f; g]
  | _ => s
  end.

Definition compress (h : list Z) (block : list Z) : list Z :=
  let s := fold_left round (combine K (schedule block)) h in
  map (fun p => add32 (fst p) (snd p)) (combine h s).

Fixpoint blocks (n : nat) (h : list Z) (bs : list Z) : list Z :=
  match n with
  | O => h
  | S n' => blocks n' (compress h (firstn 64 bs)) (skipn 64 bs)
  end.

(** [sha256.Sum256]: the 32 bytes of the digest. *)
Definition Sum256 (data : list byte) : list Z :=
  let p := pad (map byteZ data) in
  flat_map (be_bytes 4) (blocks (Nat.div (length p) 64) H0 p).

Definition hexdigit (d : Z) : ascii :=
  ascii_of_nat (Z.to_nat (if d <? 10 then 48 + d else 87 + d)).

(** [fmt.Sprintf("%x", sum)] on a byte array: two lower-case digits a byte. *)
Fixpoint hex (bs : list Z) : string :=
  match bs with
  | [] => EmptyString
  | b :: bs' => String (hexdigit (b / 16)) (String (hexdigit (b mod 16)) (hex bs'))
  end.

End SHA256.

(** ** Errors, time, payloads *)

(** [metav1.Status] as far as this package looks into it. *)
Record metav1_Status := {
  StatusMessage : string;
  StatusReason : string;
  StatusCode : Z
}.

(** [apierrors.StatusError]. *)
Record StatusError := { ErrStatus : metav1_Status }.

(** A Go [error] value: one made by [errors.New] or [fmt.Errorf], or one that
    implements [apierrors.APIStatus]. *)
Inductive error :=
| errorString (s : string)
| apiStatusError (e : StatusError).

(** [err.Error()], which is also what [%v] prints for an error. *)
Definition error_text (e : error) : string :=
  match e with
  | errorString s => s
  | apiStatusError e => StatusMessage (ErrStatus e)
  end.

Inductive result (A : Type) :=
| Ok (a : A)
| Err (e : error).
Arguments Ok {A} a.
Arguments Err {A} e.

(** [time.Time] as nanoseconds since January 1, year 1, 00:00:00 UTC: the zero
    value [time.Time{}] is [0]. *)
Definition Time := Z.
Definition zeroTime : Time := 0.
Definition IsZero (t : Time) : bool := t =? 0.

(** [time.Duration] is an [int64] count of nanoseconds; [Time.Sub] saturates. *)
Definition minDuration : Z := - 2 ^ 63.
Definition maxDuration : Z := 2 ^ 63 - 1.
Definition Sub (t u : Time) : Z :=
  let d := t - u in
  if d <? minDuration then minDuration
  else if maxDuration <? d then maxDuration
  else d.
Definition Minute : Z := 60 * 1000000000.

(** A value passed as [interface{}] to [toBytes], by what [toBytes] can see of
    it: nil, a byte slice, or any other value together with the answer of
    [json.Marshal] on it.  A [metainternalversion.ListOptions] is kept apart
    because [newApplication] converts it to [metav1.ListOptions] first; it
    carries the answer of [json.Marshal] on the converted value. *)
Inductive iface :=
| INil
| IBytes (b : list byte)
| IInternalListOptions (v1json : result (list byte))
| IOther (json : result (list byte)).

Definition toBytes (i : iface) : list byte :=
  match i with
  | INil => []
  | IBytes b => b
  | IInternalListOptions (Ok b) | IOther (Ok b) => b
  | IInternalListOptions (Err _) | IOther (Err _) => []
  end.

(** ** Application *)

Definition applicationStatus := string.
Definition PreApplying : applicationStatus := "PreApplying".
Definition InApplying : applicationStatus := "InApplying".
Definition InProcessing : applicationStatus := "InProcessing".
Definition Approved : applicationStatus := "Approved".
Definition Rejected : applicationStatus := "Rejected".
Definition Failed : applicationStatus := "Failed".
Definition Completed : applicationStatus := "Completed".

Definition applicationVerb := string.
Definition Get : applicationVerb := "get".
Definition List : applicationVerb := "list".
Definition Watch : applicationVerb := "watch".
Definition Create : applicationVerb := "create".
Definition Delete : applicationVerb := "delete".
Definition Update : applicationVerb := "update".
Definition UpdateStatus : applicationVerb := "updatestatus".
Definition Patch : applicationVerb := "patch".

(** The pair [ctx]/[cancel] of an Application, which are always set together:
    a cancellable context that is either still open or already cancelled.
    Cancellation of the parent context by the environment is not modelled. *)
Inductive Signal := Armed | Fired.

Record Application := {
  ID : string;
  Key : string;
  Verb : applicationVerb;
  Nodename : string;
  Status : applicationStatus;
  Reason : string;
  Option : list byte;
  ReqBody : list byte;
  RespBody : list byte;
  Subresource : string;
  Error : StatusError;
  Token : string;
  ctx : option Signal;   (* [ctx] and [cancel]; [None] when both are nil *)
  count : Z;             (* uint64 *)
  timestamp : Time
}.

Definition uint64 (x : Z) : Z := x mod 2 ^ 64.

Definition set_ID (v : string) (a : Application) : Application :=
  {| ID := v; Key := Key a; Verb := Verb a; Nodename := Nodename a;
     Status := Status a; Reason := Reason a; Option := Option a;
     ReqBody := ReqBody a; RespBody := RespBody a; Subresource := Subresource a;
     Error := Error a; Token := Token a; ctx := ctx a; count := count a;
     timestamp := timestamp a |}.
Definition set_Status (v : applicationStatus) (a : Application) : Application :=
  {| ID := ID a; Key := Key a; Verb := Verb a; Nodename := Nodename a;
     Status := v; Reason := Reason a; Option := Option a;
     ReqBody := ReqBody a; RespBody := RespBody a; Subresource := Subresource a;
     Error := Error a; Token := Token a; ctx := ctx a; count := count a;
     timestamp := timestamp a |}.
Definition set_Reason (v : string) (a : Application) : Application :=
  {| ID := ID a; Key := Key a; Verb := Verb a; Nodename := Nodename a;
     Status := Status a; Reason := v; Option := Option a;
     ReqBody := ReqBody a; RespBody := RespBody a; Subresource := Subresource a;
     Error := Error a; Token := Token a; ctx := ctx a; count := count a;
     timestamp := timestamp a |}.
Definition set_RespBody (v : list byte) (a : Application) : Application :=
  {| ID := ID a; Key := Key a; Verb := Verb a; Nodename := Nodename a;
     Status := Status a; Reason := Reason a; Option := Option a;
     ReqBody := ReqBody a; RespBody := v; Subresource := Subresource a;
     Error := Error a; Token := Token a; ctx := ctx a; count := count a;
     timestamp := timestamp a |}.
Definition set_Error (v : StatusError) (a : Application) : Application :=
  {| ID := ID a; Key := Key a; Verb := Verb a; Nodename := Nodename a;
     Status := Status a; Reason := Reason a; Option := Option a;
     ReqBody := ReqBody a; RespBody := RespBody a; Subresource := Subresource a;
     Error := v; Token := Token a; ctx := ctx a; count := count a;
     timestamp := timestamp a |}.
Definition set_ctx (v : option Signal) (a : Application) : Application :=
  {| ID := ID a; Key := Key a; Verb := Verb a; Nodename := Nodename a;
     Status := Status a; Reason := Reason a; Option := Option a;
     ReqBody := ReqBody a; RespBody := RespBody a; Subresource := Subresource a;
     Error := Error a; Token := Token a; ctx := v; count := count a;
     timestamp := timestamp a |}.
Definition set_count (v : Z) (a : Application) : Application :=
  {| ID := ID a; Key := Key a; Verb := Verb a; Nodename := Nodename a;
     Status := Status a; Reason := Reason a; Option := Option a;
     ReqBody := ReqBody a; RespBody := RespBody a; Subresource := Subresource a;
     Error := Error a; Token := Token a; ctx := ctx a; count := v;
     timestamp := timestamp a |}.
Definition set_timestamp (v : Time) (a : Application) : Application :=
  {| ID := ID a; Key := Key a; Verb := Verb a; Nodename := Nodename a;
     Status := Status a; Reason := Reason a; Option := Option a;
     ReqBody := ReqBody a; RespBody := RespBody a; Subresource := Subresource a;
     Error := Error a; Token := Token a; ctx := ctx a; count := count a;
     timestamp := v |}.

(** The value of [ctx.Value(commontypes.AuthorizationKey)]: a string, or a
    value of another dynamic type, whose name [%T] prints. *)
Inductive authValue :=
| AuthString (s : string)
| AuthOther (type_name : string).

(** [apirequest.RequestInfo], the two fields read here. *)
Record RequestInfo := {
  IsResourceRequest : bool;
  InfoSubresource : string
}.

(** What [Generate] reads from the request context: the answer of
    [metaserver.KeyFuncReq(ctx, "")], of [apirequest.RequestInfoFrom(ctx)] and
    the value stored under the authorization key. *)
Record Context := {
  KeyFuncReq : result string;
  RequestInfoFrom : option RequestInfo;
  AuthorizationValue : authValue
}.

Module Application.

(** The bytes that [Identifier] hashes. *)
Definition fingerprint (a : Application) : list byte :=
  list_byte_of_string (Nodename a)
    ++ list_byte_of_string (Key a)
    ++ list_byte_of_string (Verb a)
    ++ Option a
    ++ ReqBody a
    ++ list_byte_of_string (Subresource a)
    ++ list_byte_of_string (Token a).

(** [fmt.Sprintf("%x", sha256.Sum256(b))]. *)
Definition digest (a : Application) : string :=
  SHA256.hex (SHA256.Sum256 (fingerprint a)).

(** [Identifier] returns the identifier and leaves it memoized in [ID]. *)
Definition Identifier (a : Application) : Application * string :=
  if negb (String.eqb (ID a) "") then (a, ID a)
  else
    let id := digest a in
    (set_ID id a, id).

Definition String (a : Application) : string :=
  "(NodeName=" ++ Nodename a ++ ";Key=" ++ Key a ++ ";Verb=" ++ Verb a
    ++ ";Status=" ++ Status a ++ ";Reason=" ++ Reason a ++ ")".

Definition Call (a : Application) : Application :=
  match ctx a with
  | Some _ => set_ctx (Some Fired) a
  | None => a
  end.

Definition getStatus (a : Application) : applicationStatus := Status a.

(** [Wait] returns at once on a nil context and otherwise when the context is
    done; [Wait_returns] tells whether it returns in the given state. *)
Definition Wait_returns (a : Application) : bool :=
  match ctx a with
  | None | Some Fired => true
  | Some Armed => false
  end.

(** The old context, if any, is cancelled and replaced by a fresh one. *)
Definition Reset (a : Application) : Application :=
  set_RespBody [] (set_Reason "" (set_ctx (Some Armed) a)).

Definition add (a : Application) : Application :=
  set_count (uint64 (count a + 1)) a.

Definition getCount (a : Application) : Z := count a.

(** [now] is the answer of [time.Now()]. *)
Definition Close (now : Time) (a : Application) : Application :=
  if count a =? 0 then a
  else
    let a1 := set_timestamp now a in
    let a2 := set_count (uint64 (count a1 - 1)) a1 in
    if count a2 =? 0 then set_Status Completed a2 else a2.

Definition LastCloseTime (a : Application) : Time :=
  if (count a =? 0) && negb (IsZero (timestamp a)) then timestamp a
  else zeroTime.

(** The conversion of an internal [ListOptions] to [metav1.ListOptions] at
    the head of [newApplication]. *)
Definition toV1 (option : iface) : iface :=
  match option with
  | IInternalListOptions j => IOther j
  | o => o
  end.

(** [newApplication]; the error is the one for a token that is no string. *)
Definition newApplication (c : Context) (key : string) (verb : applicationVerb)
    (nodename subresource : string) (option reqBody : iface)
    : result Application :=
  let option := toV1 option in
  match AuthorizationValue c with
  | AuthOther ty => Err (errorString ("unsupported Token type :" ++ ty))
  | AuthString token =>
      let app :=
        {| ID := ""; Key := key; Verb := verb; Nodename := nodename;
           Status := PreApplying; Reason := ""; Option := toBytes option;
           ReqBody := toBytes reqBody; RespBody := [];
           Subresource := subresource;
           Error := {| ErrStatus := {| StatusMessage := ""; StatusReason := "";
                                       StatusCode := 0 |} |};
           Token := token; ctx := Some Armed; count := 0;
           timestamp := zeroTime |} in
      Ok (add app)
  end.

End Application.

(** ** Messages and the edge-side environment *)

Definition MetaServerSource : string := "metaserver".

(** Module and group names declared in other packages of the repository
    ([modules], [message]); nothing below depends on their spelling. *)
Definition DynamicControllerModuleGroup : string := "dynamiccontroller".
Definition EdgeHubModuleName : string := "websocket".

(** The body of a message: nothing, an Application put there by [FillBody]
    (its state at that moment), or raw bytes as they come off the wire. *)
Inductive Content :=
| ContentNil
| ContentApp (a : Application)
| ContentRaw (b : list byte).

(** [model.Message]; the fresh UUID and timestamp that [model.NewMessage]
    draws are left out, [MsgID] is only read on received messages. *)
Record Message := {
  MsgID : string;
  ParentID : string;
  Source : string;
  Group : string;
  Resource : string;
  Operation : string;
  Body : Content
}.

Definition NewMessage (parentID : string) : Message :=
  {| MsgID := ""; ParentID := parentID; Source := ""; Group := "";
     Resource := ""; Operation := ""; Body := ContentNil |}.
Definition SetRoute (source group : string) (m : Message) : Message :=
  {| MsgID := MsgID m; ParentID := ParentID m; Source := source; Group := group;
     Resource := Resource m; Operation := Operation m; Body := Body m |}.
Definition SetResourceOperation (resource operation : string) (m : Message) : Message :=
  {| MsgID := MsgID m; ParentID := ParentID m; Source := Source m; Group := Group m;
     Resource := resource; Operation := operation; Body := Body m |}.
Definition FillBody (c : Content) (m : Message) : Message :=
  {| MsgID := MsgID m; ParentID := ParentID m; Source := Source m; Group := Group m;
     Resource := Resource m; Operation := Operation m; Body := c |}.

(** The answers of the transport and of the JSON decoder on the edge side:
    [beehiveContext.SendSync] to a module with a timeout (a timeout is one of
    its errors), [Message.GetContentData], and [json.Unmarshal] into a new
    Application. *)
Record Codec := {
  GetContentData : Message -> result (list byte);
  Unmarshal_Application : list byte -> result Application
}.

Record Transport := {
  SendSync : string -> Message -> Z -> result Message;
  codec : Codec
}.

Definition msgToApplication (cd : Codec) (msg : Message) : result Application :=
  match GetContentData cd msg with
  | Err e => Err e
  | Ok contentData =>
      match Unmarshal_Application cd contentData with
      | Err e => Err e
      | Ok app => Ok app
      end
  end.

(** ** Agent *)

(** A [*Application]. *)
Definition loc := nat.

(** The Agent with the Applications allocated so far ([heap]) and, for the
    statements below, the log of the messages handed to [SendSync] ([sent]). *)
Record Agent := {
  heap : list Application;
  Applications : gmap string loc;
  nodeName : string;
  sent : list Message
}.

Definition set_heap (h : list Application) (a : Agent) : Agent :=
  {| heap := h; Applications := Applications a; nodeName := nodeName a; sent := sent a |}.
Definition set_Applications (m : gmap string loc) (a : Agent) : Agent :=
  {| heap := heap a; Applications := m; nodeName := nodeName a; sent := sent a |}.
Definition set_sent (l : list Message) (a : Agent) : Agent :=
  {| heap := heap a; Applications := Applications a; nodeName := nodeName a; sent := l |}.

(** [*p = app]. *)
Definition store (p : loc) (app : Application) (a : Agent) : Agent :=
  set_heap (<[p := app]> (heap a)) a.

(** A freshly allocated Application and its address. *)
Definition alloc (app : Application) (a : Agent) : Agent * loc :=
  (set_heap (heap a ++ [app]) a, length (heap a)).

(** How far a call of [Apply] got: it returned, or it stands in [app.Wait()] on
    the Application at [p], after issuing [go a.doApply(app)] or not; [Crashed]
    is a dereference of a pointer that was never allocated. *)
Inductive ApplyStep :=
| Returned (e : option error)
| Blocked (p : loc) (spawned : bool)
| Crashed.

Module Agent.

Definition NewApplicationAgent (nodeName : string) : Agent :=
  {| heap := []; Applications := ∅; nodeName := nodeName; sent := [] |}.

Definition Generate (a : Agent) (c : Context) (verb : applicationVerb)
    (option obj : iface) : Agent * result loc :=
  match KeyFuncReq c with
  | Err err => (a, Err err)
  | Ok key =>
      match RequestInfoFrom c with
      | None => (a, Err (errorString "no request info in context"))
      | Some info =>
          if negb (IsResourceRequest info)
          then (a, Err (errorString "no request info in context"))
          else
            match Application.newApplication c key verb (nodeName a)
                    (InfoSubresource info) option obj with
            | Err err => (a, Err err)
            | Ok app0 =>
                let '(app, id) := Application.Identifier app0 in
                let '(a1, p) := alloc app a in
                match Applications a1 !! id with
                | Some q =>
                    (* the table only holds allocated pointers, see [table_ok] *)
                    match heap a1 !! q with
                    | Some stored => (store q (Application.add stored) a1, Ok q)
                    | None => (a1, Ok q)
                    end
                | None => (set_Applications (<[id := p]> (Applications a1)) a1, Ok p)
                end
            end
      end
  end.

(** The message that [doApply] builds around the Application. *)
Definition applyMessage (app : Application) : Message :=
  let msg := FillBody (ContentApp app)
               (SetRoute MetaServerSource DynamicControllerModuleGroup
                  (NewMessage "")) in
  SetResourceOperation "null" "null" msg.

(** [doApply] on the Application at [p]; the deferred [Call] runs on every
    path. *)
Definition doApply (tr : Transport) (a : Agent) (p : loc) : Agent :=
  match heap a !! p with
  | None => a
  | Some app0 =>
      let app := set_Status InApplying app0 in
      let msg := applyMessage app in
      let a := set_sent (sent a ++ [msg]) a in
      let app :=
        match SendSync tr EdgeHubModuleName msg (10 * 1000000000) with
        | Err err =>
            set_Reason ("failed to access cloud Application center: " ++ error_text err)
              (set_Status Failed app)
        | Ok resp =>
            match msgToApplication (codec tr) resp with
            | Err err =>
                set_Reason ("failed to get Application from resp msg: " ++ error_text err)
                  (set_Status Failed app)
            | Ok retApp =>
                set_RespBody (RespBody retApp)
                  (set_Error (Error retApp)
                     (set_Reason (Reason retApp)
                        (set_Status (Status retApp) app)))
            end
        end in
      store p (Application.Call app) a
  end.

(** [Apply] up to the point where it returns or starts to wait. *)
Definition Apply_begin (a : Agent) (p : loc) : Agent * ApplyStep :=
  match heap a !! p with
  | None => (a, Crashed)
  | Some arg =>
      let '(arg, id) := Application.Identifier arg in
      let a := store p arg a in
      match Applications a !! id with
      | None =>
          (a, Returned (Some (errorString
                ("application " ++ Application.String arg
                   ++ " has not been registered to agent"))))
      | Some q =>
          match heap a !! q with
          | None => (a, Crashed)
          | Some app =>
              let st := Application.getStatus app in
              if String.eqb st PreApplying then (a, Blocked q true)
              else if String.eqb st Completed
                   then (store q (Application.Reset app) a, Blocked q true)
              else if String.eqb st Rejected
                   then (a, Returned (Some (apiStatusError (Error app))))
              else if String.eqb st Failed
                   then (a, Returned (Some (errorString (Reason app))))
              else if String.eqb st Approved then (a, Returned None)
              else if String.eqb st InApplying then (a, Blocked q false)
              else (a, Blocked q false)
          end
      end
  end.

(** [Apply] from the return of [app.Wait()] on. *)
Definition Apply_end (a : Agent) (q : loc) : ApplyStep :=
  match heap a !! q with
  | None => Crashed
  | Some app =>
      if String.eqb (Application.getStatus app) Rejected
      then Returned (Some (apiStatusError (Error app)))
      else if negb (String.eqb (Application.getStatus app) Approved)
           then Returned (Some (errorString (Reason app)))
      else Returned None
  end.

(** [Apply] run by one caller with nobody else at work: the cycle it starts,
    if any, runs to its end, and [Wait] returns once the signal has fired;
    otherwise the caller stays blocked. *)
Definition Apply (tr : Transport) (a : Agent) (p : loc) : Agent * ApplyStep :=
  match Apply_begin a p with
  | (a1, Blocked q spawned) =>
      let a2 := if spawned then doApply tr a1 q else a1 in
      match heap a2 !! q with
      | None => (a2, Crashed)
      | Some app =>
          if Application.Wait_returns app then (a2, Apply_end a2 q)
          else (a2, Blocked q spawned)
      end
  | r => r
  end.

(** [GC]; [since key lastCloseTime] is the answer of
    [time.Since(lastCloseTime)] at the moment the entry [key] is visited. *)
Definition GC_deletes (since : string -> Time -> Z) (a : Agent)
    (key : string) (p : loc) : bool :=
  match heap a !! p with
  | None => false
  | Some app =>
      let lastCloseTime := Application.LastCloseTime app in
      negb (IsZero lastCloseTime) && (5 * Minute <=? since key lastCloseTime)
  end.

Definition GC (since : string -> Time -> Z) (a : Agent) : Agent :=
  set_Applications
    (filter (fun kp => GC_deletes since a kp.1 kp.2 = false) (Applications a)) a.

End Agent.

(** [time.Since] for a clock that reads [now]. *)
Definition Since (now : Time) (t : Time) : Z := Sub now t.

(** [app.Close()] by a caller that holds the pointer [p]. *)
Definition Close_at (now : Time) (p : loc) (a : Agent) : Agent :=
  match heap a !! p with
  | Some app => store p (Application.Close now app) a
  | None => a
  end.

(** The states the Agent of node [n] goes through: it starts empty and its
    callers run [Generate], [Apply], [doApply], [GC] and [Close], one after the
    other. *)
Inductive reachable (n : string) : Agent -> Prop :=
| reach_new :
    reachable n (Agent.NewApplicationAgent n)
| reach_Generate a c verb option obj :
    reachable n a -> reachable n (Agent.Generate a c verb option obj).1
| reach_Apply_begin a p :
    reachable n a -> reachable n (Agent.Apply_begin a p).1
| reach_doApply tr a p :
    reachable n a -> reachable n (Agent.doApply tr a p)
| reach_GC since a :
    reachable n a -> reachable n (Agent.GC since a)
| reach_Close now p a :
    reachable n a -> reachable n (Close_at now p a).

(** Every entry of the table points to an allocated Application that carries
    the entry's key as its [ID], and the key is the hash of its fields. *)
Definition table_ok (a : Agent) : Prop :=
  forall k p, Applications a !! k = Some p ->
    exists app, heap a !! p = Some app /\ ID app = k
                /\ k = Application.digest app.

(** ** The cloud-side environment *)

Record GroupVersionResource := {
  GVRGroup : string;
  GVRVersion : string;
  GVRResource : string
}.

(** [GroupVersionResource.String], which [%v] prints. *)
Definition GVR_String (gvr : GroupVersionResource) : string :=
  GVRGroup gvr ++ "/" ++ GVRVersion gvr ++ ", Resource=" ++ GVRResource gvr.

(** [metav1.ListOptions], the fields that matter here. *)
Record ListOptions := {
  LabelSelector : string;
  FieldSelector : string;
  ResourceVersion : string
}.

(** Decoded values that are only passed on to the backend. *)
Inductive GetOptions := mkGetOptions (repr : list byte).
Inductive CreateOptions := mkCreateOptions (repr : list byte).
Inductive DeleteOptions := mkDeleteOptions (repr : list byte).
Inductive UpdateOptions := mkUpdateOptions (repr : list byte).
Inductive PatchOptions := mkPatchOptions (repr : list byte).
Inductive Object := mkObject (repr : list byte).

Record PatchInfo := {
  PatchName : string;
  PatchType : string;
  PatchData : list byte;
  PatchOpts : PatchOptions;
  PatchSubresources : list string
}.

(** [fields.Selector]: [OneTermEqualSelector k v] is [hasTerm k v] and
    [AndSelectors] builds an [andTerm]. *)
#[warnings="-register-all"] Inductive fields_Selector :=
| hasTerm (field value : string)
| notHasTerm (field value : string)
| andTerm (terms : list fields_Selector).

Definition OneTermEqualSelector (k v : string) : fields_Selector := hasTerm k v.
Definition AndSelectors (ss : list fields_Selector) : fields_Selector := andTerm ss.

(** [labels.Selector], kept abstract. *)
Inductive labels_Selector := mkLabels (repr : string).

Record LabelFieldSelector := {
  Label : labels_Selector;
  Field : fields_Selector
}.

(** Modelled from the spec: [NewSelectorListener] and the [SelectorListener]
    it builds are declared in a file that is not among the sources; a listener
    is a persistent watch target for a node, a resource and a selector. *)
Record SelectorListener := {
  ListenerNodeName : string;
  ListenerGVR : GroupVersionResource;
  ListenerSelector : LabelFieldSelector
}.

Definition NewSelectorListener (nodeName : string) (gvr : GroupVersionResource)
    (selector : LabelFieldSelector) : SelectorListener :=
  {| ListenerNodeName := nodeName; ListenerGVR := gvr; ListenerSelector := selector |}.

(** [authorizationv1.ResourceAttributes] of a [SelfSubjectAccessReview]. *)
Record ResourceAttributes := {
  AttrNamespace : string;
  AttrVerb : string;
  AttrGroup : string;
  AttrResource : string;
  AttrName : string;
  AttrSubresource : string
}.

(** [authorizationv1.SubjectAccessReviewStatus]. *)
Record SubjectAccessReviewStatus := {
  Allowed : bool;
  ReviewReason : string;
  EvaluationError : string
}.

(** The [dynamic.Interface] in use: the shared default client or one built for
    a bearer token. *)
Inductive Client :=
| DefaultClient
| TokenClient (bearer : string).

Inductive BackendCall :=
| CallList (gvr : GroupVersionResource) (ns : string) (o : ListOptions)
| CallGet (gvr : GroupVersionResource) (ns name : string) (o : GetOptions)
| CallCreate (gvr : GroupVersionResource) (ns : string) (obj : Object)
    (o : CreateOptions) (subresources : list string)
| CallDelete (gvr : GroupVersionResource) (ns name : string) (o : DeleteOptions)
| CallUpdate (gvr : GroupVersionResource) (ns : string) (obj : Object)
    (o : UpdateOptions) (subresources : list string)
| CallUpdateStatus (gvr : GroupVersionResource) (ns : string) (obj : Object)
    (o : UpdateOptions)
| CallPatch (gvr : GroupVersionResource) (ns name : string) (pt : string)
    (data : list byte) (o : PatchOptions) (subresources : list string).

(** What the Center does to the outside, in order. *)
Inductive Event :=
| EvAccessReview (bearer : string) (attrs : ResourceAttributes)
| EvBackend (c : Client) (call : BackendCall)
| EvAddListener (l : SelectorListener)
| EvResponse (m : Message).

Definition is_AccessReview (e : Event) : bool :=
  match e with EvAccessReview _ _ => true | _ => false end.
Definition is_Backend (e : Event) : bool :=
  match e with EvBackend _ _ => true | _ => false end.
Definition is_AddListener (e : Event) : bool :=
  match e with EvAddListener _ => true | _ => false end.

(** How often a trace calls the access review, the backend, [AddListener]. *)
Definition reviews (t : list Event) : nat := length (List.filter is_AccessReview t).
Definition backendCalls (t : list Event) : nat := length (List.filter is_Backend t).
Definition registrations (t : list Event) : nat := length (List.filter is_AddListener t).

(** The answers of everything the Center calls: the feature gate
    [RequireAuthorization], [metaserver.ParseKey], [json.Unmarshal] at each
    target type ([Unmarshal_DeleteOptions] decodes into a pointer to the
    pointer, so it can leave nil), the access review made with a bearer token,
    the resource backend, [NewSelector], the listener registry,
    [filter.MessageFilter], [json.Marshal] of a result,
    [messagelayer.BuildResource], and [fmt.Errorf] of a format without
    operands (the format itself when it has no percent sign).  The message
    layer's [Response] only shows in the trace: its error is logged and
    dropped. *)
Record Cloud := {
  RequireAuthorization : bool;
  ParseKey : string -> GroupVersionResource * string * string;
  Unmarshal_ListOptions : list byte -> result ListOptions;
  Unmarshal_GetOptions : list byte -> result GetOptions;
  Unmarshal_CreateOptions : list byte -> result CreateOptions;
  Unmarshal_DeleteOptions : list byte -> result (option DeleteOptions);
  Unmarshal_UpdateOptions : list byte -> result UpdateOptions;
  Unmarshal_PatchInfo : list byte -> result PatchInfo;
  Unmarshal_Unstructured : list byte -> result Object;
  SelfSubjectAccessReview : string -> ResourceAttributes -> result SubjectAccessReviewStatus;
  Backend : Client -> BackendCall -> result Object;
  NewSelector : string -> string -> LabelFieldSelector;
  AddListener : SelectorListener -> option error;
  MessageFilter : Object -> string -> Object;
  Marshal_Object : Object -> result (list byte);
  BuildResource : string -> string -> string -> string -> result string;
  Errorf_format : string -> string;
  cloud_codec : Codec
}.

(** ** A trace-and-error monad for the Center *)

Inductive outcome (A : Type) :=
| Done (a : A)
| Fail (e : error)
| Panic.
Arguments Done {A} a.
Arguments Fail {A} e.
Arguments Panic {A}.

Definition M (A : Type) : Type := list Event * outcome A.

Definition ret {A} (a : A) : M A := ([], Done a).
Definition fail {A} (e : error) : M A := ([], Fail e).
Definition panic {A} : M A := ([], Panic).
Definition lift {A} (r : result A) : M A :=
  match r with
  | Ok a => ret a
  | Err e => fail e
  end.
(** An outside call: logged, then its answer. *)
Definition call {A} (ev : Event) (r : result A) : M A :=
  match r with
  | Ok a => ([ev], Done a)
  | Err e => ([ev], Fail e)
  end.
Definition bind {A B} (m : M A) (k : A -> M B) : M B :=
  match m with
  | (t, Done a) => let '(t', r) := k a in ((t ++ t')%list, r)
  | (t, Fail e) => (t, Fail e)
  | (t, Panic) => (t, Panic)
  end.

Declare Scope center_scope.
Delimit Scope center_scope with center.
Notation "x <- m ;; k" := (bind m (fun x => k))
  (at level 100, m at next level, right associativity) : center_scope.

(** ** strings.SplitN and strings.ToLower *)

(** The part of [s] before the first [sep] and, if [sep] occurs, the part
    after it. *)
Fixpoint cut (sep : ascii) (s : string) : string * option string :=
  match s with
  | EmptyString => (EmptyString, None)
  | String c s' =>
      if Ascii.eqb c sep then (EmptyString, Some s')
      else let '(h, t) := cut sep s' in (String c h, t)
  end.

(** [strings.SplitN(s, sep, n)] for a one-byte separator and [n >= 0]. *)
Fixpoint SplitN (s : string) (sep : ascii) (n : nat) : list string :=
  match n with
  | O => []
  | S O => [s]
  | S n' =>
      match cut sep s with
      | (h, None) => [h]
      | (h, Some t) => h :: SplitN t sep n'
      end
  end.

Definition lower (c : ascii) : ascii :=
  let n := nat_of_ascii c in
  if (65 <=? n)%nat && (n <=? 90)%nat then ascii_of_nat (n + 32) else c.

(** [strings.ToLower] on ASCII letters.  It is only compared with ["bearer"]
    below, and no letter outside ASCII has a lower case among b, e, a, r, so
    the comparison comes out the same. *)
Fixpoint ToLower (s : string) : string :=
  match s with
  | EmptyString => EmptyString
  | String c s' => String (lower c) (ToLower s')
  end.

(** ** Center *)

Module Center.

Local Open Scope center_scope.

(** [generateNewConfig]: the configuration returned is the Center's own with
    [BearerToken] replaced, so the bearer token stands for it. *)
Definition generateNewConfig (raw : string) : result string :=
  let parts := SplitN raw " "%char 3 in
  if (length parts <? 2)%nat
     || negb (String.eqb (ToLower (nth 0 parts "")) "bearer")
     || (String.length (nth 1 parts "") <=? 0)%nat
  then Err (errorString ("invalid request token format or length: "
                           ++ pretty (length parts)))
  else Ok (nth 1 parts "").

Definition createAuthClient (app : Application) : result string :=
  match generateNewConfig (Token app) with
  | Err err => Err err
  | Ok bearer => Ok bearer
  end.

Definition createKubeClient (cl : Cloud) (app : Application) : result Client :=
  if negb (RequireAuthorization cl) then Ok DefaultClient
  else
    match generateNewConfig (Token app) with
    | Err err => Err err
    | Ok bearer => Ok (TokenClient bearer)
    end.

(** The review that [authorizeApplication] asks for. *)
Definition accessReview (app : Application) (gvr : GroupVersionResource)
    (namespace name : string) : ResourceAttributes :=
  {| AttrNamespace := namespace; AttrVerb := Verb app;
     AttrGroup := GVRGroup gvr; AttrResource := GVRResource gvr;
     AttrName := name; AttrSubresource := Subresource app |}.

(** The [errMsg] that [authorizeApplication] builds when access is denied. *)
Definition denialMessage (gvr : GroupVersionResource)
    (response : SubjectAccessReviewStatus) : string :=
  let errMsg := "resource " ++ GVR_String gvr ++ " authorize failed." in
  let errMsg :=
    if (0 <? String.length (ReviewReason response))%nat
    then errMsg ++ "reason: " ++ ReviewReason response ++ "."
    else errMsg in
  let errMsg :=
    if (0 <? String.length (EvaluationError response))%nat
    then errMsg ++ "evaluation error: " ++ EvaluationError response ++ "."
    else errMsg in
  errMsg.

Definition authorizeApplication (cl : Cloud) (app : Application)
    (gvr : GroupVersionResource) (namespace name : string) : M unit :=
  if negb (RequireAuthorization cl) then ret tt
  else
    tmpAuthClient <- lift (createAuthClient app) ;;
    let sar := accessReview app gvr namespace name in
    response <- call (EvAccessReview tmpAuthClient sar)
                  (SelfSubjectAccessReview cl tmpAuthClient sar) ;;
    if Allowed response then ret tt
    else fail (errorString (Errorf_format cl (denialMessage gvr response))).

Definition OptionTo {T} (unmarshal : list byte -> result T) (a : Application)
    : result T :=
  match unmarshal (Option a) with
  | Err err => Err (errorString ("failed to prase Option bytes, " ++ error_text err))
  | Ok v => Ok v
  end.

Definition ReqBodyTo {T} (unmarshal : list byte -> result T) (a : Application)
    : result T :=
  match unmarshal (ReqBody a) with
  | Err err => Err (errorString ("failed to parse ReqBody bytes, " ++ error_text err))
  | Ok v => Ok v
  end.

Definition ToListener (cl : Cloud) (a : Application) (option : ListOptions)
    : SelectorListener :=
  let '(gvr, namespace, _) := ParseKey cl (Key a) in
  let selector := NewSelector cl (LabelSelector option) (FieldSelector option) in
  let selector :=
    if negb (String.eqb namespace "")
    then {| Label := Label selector;
            Field := AndSelectors
                       [Field selector;
                        OneTermEqualSelector "metadata.namespace" namespace] |}
    else selector in
  NewSelectorListener (Nodename a) gvr selector.

(** A method call on the client; on a nil client it panics. *)
Definition backend (cl : Cloud) (kubeClient : option Client) (c : BackendCall)
    : M Object :=
  match kubeClient with
  | None => panic
  | Some k => call (EvBackend k c) (Backend cl k c)
  end.

Definition subresources (app : Application) : list string :=
  if String.eqb (Subresource app) "" then [] else [Subresource app].

(** [ProcessApplication]: the Application with its Status set, the trace of
    outside calls, and the returned object (or nil) or error. *)
Definition ProcessApplication (cl : Cloud) (app : Application)
    : Application * M (option Object) :=
  let app := set_Status InProcessing app in
  let '(gvr, ns, name) := ParseKey cl (Key app) in
  (app,
   kubeClient <-
     (if negb (String.eqb (Verb app) Watch)
      then c <- lift (createKubeClient cl app) ;; ret (Some c)
      else _ <- authorizeApplication cl app gvr ns name ;; ret None) ;;
   if String.eqb (Verb app) List then
     option <- lift (OptionTo (Unmarshal_ListOptions cl) app) ;;
     match backend cl kubeClient (CallList gvr ns option) with
     | (t, Fail err) =>
         (t, Fail (errorString ("get current list error: " ++ error_text err)))
     | (t, Done list) => (t, Done (Some list))
     | (t, Panic) => (t, Panic)
     end
   else if String.eqb (Verb app) Watch then
     option <- lift (OptionTo (Unmarshal_ListOptions cl) app) ;;
     let l := ToListener cl app option in
     match AddListener cl l with
     | Some err =>
         ([EvAddListener l],
          Fail (errorString ("failed to add listener, " ++ error_text err)))
     | None => ([EvAddListener l], Done None)
     end
   else if String.eqb (Verb app) Get then
     option <- lift (OptionTo (Unmarshal_GetOptions cl) app) ;;
     retObj <- backend cl kubeClient (CallGet gvr ns name option) ;;
     ret (Some retObj)
   else if String.eqb (Verb app) Create then
     option <- lift (OptionTo (Unmarshal_CreateOptions cl) app) ;;
     obj <- lift (ReqBodyTo (Unmarshal_Unstructured cl) app) ;;
     retObj <- backend cl kubeClient
                 (CallCreate gvr ns obj option (subresources app)) ;;
     ret (Some retObj)
   else if String.eqb (Verb app) Delete then
     option <- lift (OptionTo (Unmarshal_DeleteOptions cl) app) ;;
     match option with
     | None => panic
     | Some option =>
         _ <- backend cl kubeClient (CallDelete gvr ns name option) ;;
         ret None
     end
   else if String.eqb (Verb app) Update then
     option <- lift (OptionTo (Unmarshal_UpdateOptions cl) app) ;;
     obj <- lift (ReqBodyTo (Unmarshal_Unstructured cl) app) ;;
     retObj <- backend cl kubeClient
                 (CallUpdate gvr ns obj option (subresources app)) ;;
     ret (Some retObj)
   else if String.eqb (Verb app) UpdateStatus then
     option <- lift (OptionTo (Unmarshal_UpdateOptions cl) app) ;;
     obj <- lift (ReqBodyTo (Unmarshal_Unstructured cl) app) ;;
     retObj <- backend cl kubeClient (CallUpdateStatus gvr ns obj option) ;;
     ret (Some retObj)
   else if String.eqb (Verb app) Patch then
     pi <- lift (OptionTo (Unmarshal_PatchInfo cl) app) ;;
     retObj <- backend cl kubeClient
                 (CallPatch gvr ns (PatchName pi) (PatchType pi) (PatchData pi)
                    (PatchOpts pi) (PatchSubresources pi)) ;;
     ret (Some retObj)
   else
     fail (errorString ("unsupported Application Verb type :" ++ Verb app))).



End Center.

(** ** Concrete worlds on which the model is run *)

Module Scenario.

(** A request for [apps/v1/deployments/default/web]. *)
Definition request (subresource token : string) : Context :=
  {| KeyFuncReq := Ok "/apps/v1/deployments/default/web";
     RequestInfoFrom :=
       Some {| IsResourceRequest := true; InfoSubresource := subresource |};
     AuthorizationValue := AuthString token |}.

Definition edge : Agent := Agent.NewApplicationAgent "edge-node-1".

(** The Agent after one and after two identical [get] requests. *)
Definition once : Agent :=
  (Agent.Generate edge (request "" "Bearer abc") Get INil INil).1.
Definition twice : Agent :=
  (Agent.Generate once (request "" "Bearer abc") Get INil INil).1.

Definition noCodec : Codec :=
  {| GetContentData := fun _ => Err (errorString "content is nil");
     Unmarshal_Application :=
       fun _ => Err (errorString "unexpected end of JSON input") |}.

(** A transport on which every [SendSync] times out. *)
Definition timeout : Transport :=
  {| SendSync := fun _ _ _ => Err (errorString "timeout to get response");
     codec := noCodec |}.

(** The Agent after one request whose send cycle has timed out. *)
Definition failed : Agent := Agent.doApply timeout once 0%nat.

(** A transport on which every [SendSync] comes back with an Approved
    Application that carries the body ["{}"]. *)
Definition approving : Transport :=
  {| SendSync := fun _ m _ => Ok m;
     codec :=
       {| GetContentData := fun _ => Ok [];
          Unmarshal_Application :=
            fun _ =>
              Ok {| ID := ""; Key := ""; Verb := Get; Nodename := "";
                    Status := Approved; Reason := ""; Option := [];
                    ReqBody := []; RespBody := list_byte_of_string "{}";
                    Subresource := "";
                    Error := {| ErrStatus := {| StatusMessage := "";
                                                StatusReason := "";
                                                StatusCode := 0 |} |};
                    Token := ""; ctx := None; count := 0;
                    timestamp := zeroTime |} |} |}.

Definition deployments : GroupVersionResource :=
  {| GVRGroup := "apps"; GVRVersion := "v1"; GVRResource := "deployments" |}.

(** A watch Application as it arrives at the Center. *)
Definition watchApp (token : string) : Application :=
  {| ID := ""; Key := "/apps/v1/deployments/default/web"; Verb := Watch;
     Nodename := "edge-node-1"; Status := InApplying; Reason := "";
     Option := []; ReqBody := []; RespBody := []; Subresource := "";
     Error := {| ErrStatus := {| StatusMessage := ""; StatusReason := "";
                                 StatusCode := 0 |} |};
     Token := token; ctx := None; count := 0; timestamp := zeroTime |}.

(** A cloud whose feature gate is [gate] and whose access review answers
    [allowed]; every option decodes to the selector [app=web]. *)
Definition cloud (gate allowed : bool) (token : string) : Cloud :=
  {| RequireAuthorization := gate;
     ParseKey := fun _ => (deployments, "default", "web");
     Unmarshal_ListOptions :=
       fun _ => Ok {| LabelSelector := "app=web"; FieldSelector := "";
                      ResourceVersion := "" |};
     Unmarshal_GetOptions := fun b => Ok (mkGetOptions b);
     Unmarshal_CreateOptions := fun b => Ok (mkCreateOptions b);
     Unmarshal_DeleteOptions := fun b => Ok (Some (mkDeleteOptions b));
     Unmarshal_UpdateOptions := fun b => Ok (mkUpdateOptions b);
     Unmarshal_PatchInfo :=
       fun b => Ok {| PatchName := "web"; PatchType := "application/merge-patch+json";
                      PatchData := b; PatchOpts := mkPatchOptions [];
                      PatchSubresources := [] |};
     Unmarshal_Unstructured := fun b => Ok (mkObject b);
     SelfSubjectAccessReview :=
       fun _ _ => Ok {| Allowed := allowed; ReviewReason := "RBAC: access denied";
                        EvaluationError := "" |};
     Backend := fun _ _ => Ok (mkObject []);
     NewSelector :=
       fun ls fs => {| Label := mkLabels ls; Field := andTerm [] |};
     AddListener := fun _ => None;
     MessageFilter := fun o _ => o;
     Marshal_Object := fun o => match o with mkObject b => Ok b end;
     BuildResource :=
       fun node ns ty id => Ok ("node/" ++ node ++ "/" ++ ns ++ "/" ++ ty ++ "/" ++ id);
     Errorf_format := fun s => s;
     cloud_codec :=
       {| GetContentData := fun _ => Ok [];
          Unmarshal_Application := fun _ => Ok (watchApp token) |} |}.


(** The Agent after an [update] request on the subresource ["status"] with
    the token ["Bearer abc"], and after a further one without subresource
    and with the token ["statusBearer abc"]. *)
Definition merged1 : Agent :=
  (Agent.Generate edge (request "status" "Bearer abc") Update INil INil).1.
Definition merged2 : Agent :=
  (Agent.Generate merged1 (request "" "statusBearer abc") Update INil INil).1.

(** Two Applications that differ in [Nodename] and [Key] only. *)
Definition app_ab : Application :=
  {| ID := ""; Key := ""; Verb := Get; Nodename := "ab";
     Status := PreApplying; Reason := ""; Option := []; ReqBody := [];
     RespBody := []; Subresource := "";
     Error := {| ErrStatus := {| StatusMessage := ""; StatusReason := "";
                                 StatusCode := 0 |} |};
     Token := "Bearer abc"; ctx := Some Armed; count := 1;
     timestamp := zeroTime |}.
Definition app_a_b : Application :=
  {| ID := ""; Key := "b"; Verb := Get; Nodename := "a";
     Status := PreApplying; Reason := ""; Option := []; ReqBody := [];
     RespBody := []; Subresource := "";
     Error := {| ErrStatus := {| StatusMessage := ""; StatusReason := "";
                                 StatusCode := 0 |} |};
     Token := "Bearer abc"; ctx := Some Armed; count := 1;
     timestamp := zeroTime |}.

(** An Application released by its last holder at time 1000. *)
Definition idle : Application :=
  Application.Close 1000 (set_Status Approved app_ab).

(** An Agent whose table holds [idle] under the key ["k"]. *)
Definition sweeping : Agent :=
  {| heap := [idle]; Applications := {[ "k" := 0%nat ]};
     nodeName := "ab"; sent := [] |}.

End Scenario.

(** What holds of every Application that the Agent of node [n] has
    allocated: its count is a [uint64], it is for that node, and it has a
    context. *)
Definition cell_ok (n : string) (app : Application) : Prop :=
  0 <= count app < 2 ^ 64 /\ Nodename app = n /\ ctx app <> None.

(** * The device-twin communication worker ([package dtmanager]) *)

(** Names that [dtcommon] and [cloudconnection] declare, outside the sources
    at hand: the four actions, the two connection states of a context, the two
    contents of a life-cycle message, and three module names. *)
Record Names := {
  SendToCloud : string;
  SendToEdge : string;
  LifeCycle : string;
  Confirm : string;
  Connected : string;
  Disconnected : string;
  CloudConnected : string;
  CloudDisconnected : string;
  HubModule : string;
  EventHubModule : string;
  CommModule : string
}.

(** [dttype.GetDetailNode]. *)
Record GetDetailNode := {
  EventType : string;
  EventID : string;
  DetailOperation : string;
  GroupID : string;
  TimeStamp : Z
}.

Module dtmanager.

Section Worker.

(** [model.Message] through what this package reads of it: [GetID],
    [GetParentID], and its [Content] when that is a string. *)
Variable Msg : Type.
Variable GetID : Msg -> string.
Variable GetParentID : Msg -> string.
Variable ContentString : Msg -> option string.

Variable nm : Names.

(** A value passed as [interface{}] where a [*model.Message] is expected. *)
Inductive any :=
| AnyMessage (m : Msg)
| AnyOther (type_name : string).

(** [dttype.DTMessage]. *)
Record DTMessage := {
  DTMsg : any;
  Identity : string;
  Action : string;
  DTType : string
}.

(** A value of the confirm map: a [*dttype.DTMessage] or something else. *)
Inductive confirmValue :=
| IsDTMessage (d : DTMessage)
| NotDTMessage.

(** [dtcontext.DTContext], the fields used here. *)
Record DTContext := {
  State : string;
  ConfirmMap : gmap string confirmValue;
  NodeName : string
}.

Definition set_State (v : string) (c : DTContext) : DTContext :=
  {| State := v; ConfirmMap := ConfirmMap c; NodeName := NodeName c |}.
Definition set_ConfirmMap (m : gmap string confirmValue) (c : DTContext)
    : DTContext :=
  {| State := State c; ConfirmMap := m; NodeName := NodeName c |}.

(** The answers of what [detailRequest] and [Start] call: [uuid.New], the
    clock in nanoseconds, [json.Marshal] of the request,
    [DTContext.BuildModelMessage] and [DTContext.HeartBeat]. *)
Variable newUUID : string.
Variable nowUnixNano : Z.
Variable Marshal_GetDetailNode : GetDetailNode -> result string.
Variable BuildModelMessage :
  DTContext -> string -> string -> string -> string -> string -> Msg.
Variable HeartBeat : DTContext -> string -> string -> option error.

(** What a callback does: the context it leaves, the messages it hands to
    [beehiveContext.Send] with their module, and its error. *)
Definition effect : Type := DTContext * list (string * Msg) * option error.
Definition CallBack : Type := DTContext -> string -> any -> effect.

Definition dealSendToEdge : CallBack := fun context resource msg =>
  match msg with
  | AnyOther ty =>
      (context, [],
       Some (errorString ("msg type is " ++ ty ++ " and not Message type")))
  | AnyMessage message => (context, [(EventHubModule nm, message)], None)
  end.

Definition dealSendToCloud : CallBack := fun context resource msg =>
  if String.eqb (State context) (Disconnected nm) then (context, [], None)
  else
    match msg with
    | AnyOther _ => (context, [], Some (errorString "msg not Message type"))
    | AnyMessage message =>
        let msgID := GetID message in
        (set_ConfirmMap
           (<[msgID := IsDTMessage {| DTMsg := AnyMessage message; Identity := "";
                                      Action := SendToCloud nm;
                                      DTType := CommModule nm |}]>
              (ConfirmMap context)) context,
         [(HubModule nm, message)], None)
    end.

Definition detailRequest (context : DTContext) : effect :=
  let getDetail :=
    {| EventType := "group_membership_event"; EventID := newUUID;
       DetailOperation := "detail"; GroupID := NodeName context;
       TimeStamp := Z.quot nowUnixNano 1000000 |} in
  match Marshal_GetDetailNode getDetail with
  | Err marshalErr => (context, [], Some marshalErr)
  | Ok getDetailJSON =>
      let message :=
        BuildModelMessage context "resource" "" "membership/detail" "get"
          getDetailJSON in
      let msgID := GetID message in
      let context :=
        if negb (String.eqb (GetParentID message) "")
        then set_ConfirmMap
               (<[msgID := IsDTMessage {| DTMsg := AnyMessage message;
                                          Identity := "";
                                          Action := SendToCloud nm;
                                          DTType := CommModule nm |}]>
                  (ConfirmMap context)) context
        else context in
      (context, [(HubModule nm, message)], None)
  end.

Definition dealLifeCycle : CallBack := fun context resource msg =>
  match msg with
  | AnyOther _ => (context, [], Some (errorString "msg not Message type"))
  | AnyMessage message =>
      let connectedInfo :=
        match ContentString message with
        | Some s => s
        | None => ""
        end in
      if String.eqb connectedInfo (CloudConnected nm) then
        if String.eqb (State context) (Disconnected nm) then
          match detailRequest context with
          | (context', sends, Some err) => (context', sends, Some err)
          | (context', sends, None) =>
              (set_State (Connected nm) context', sends, None)
          end
        else (set_State (Connected nm) context, [], None)
      else if String.eqb connectedInfo (CloudDisconnected nm) then
        (set_State (Disconnected nm) context, [], None)
      else (context, [], None)
  end.

Definition dealConfirm : CallBack := fun context resource msg =>
  match msg with
  | AnyMessage value =>
      let parentMsgID := GetParentID value in
      (set_ConfirmMap (delete parentMsgID (ConfirmMap context)) context, [], None)
  | AnyOther _ =>
      (context, [], Some (errorString "CommModule deal confirm, type not correct"))
  end.

(** [ActionCallBack] as [initActionCallBack] fills it. *)
Definition ActionCallBack : gmap string CallBack :=
  <[Confirm nm := dealConfirm]>
    (<[LifeCycle nm := dealLifeCycle]>
       (<[SendToEdge nm := dealSendToEdge]>
          (<[SendToCloud nm := dealSendToCloud]> ∅))).

(** The body of the [Range] callback of [checkConfirm] on one entry; errors
    of the callbacks are logged and dropped. *)
Definition redo (acc : DTContext * list (string * Msg))
    (entry : string * confirmValue) : DTContext * list (string * Msg) :=
  match entry.2 with
  | NotDTMessage => acc
  | IsDTMessage dtmsg =>
      match ActionCallBack !! Action dtmsg with
      | Some fn =>
          let '(context, sends, _) := fn acc.1 (Identity dtmsg) (DTMsg dtmsg) in
          (context, (acc.2 ++ sends)%list)
      | None => acc
      end
  end.

(** [checkConfirm]: the entries that the map holds when [Range] starts are
    visited once each, in the order of [map_to_list]. *)
Definition checkConfirm (context : DTContext) : DTContext * list (string * Msg) :=
  fold_left redo (map_to_list (ConfirmMap context)) (context, []).

(** What one turn of the [select] in [Start] can yield: a value from
    [ReceiverChan] (a [*dttype.DTMessage], something else, or nothing because
    the channel is closed), the sixty seconds passing, or a value from
    [HeartBeatChan] (nothing when closed). *)
Inductive received :=
| GotDTMessage (d : DTMessage)
| GotOther.

Inductive selected :=
| FromReceiver (v : option received)
| After60s
| FromHeartBeat (v : option string).

(** One turn of the loop of [Start]; the flag tells whether the loop goes
    on. *)
Definition Start_turn (group : string) (context : DTContext) (sel : selected)
    : DTContext * list (string * Msg) * bool :=
  match sel with
  | FromReceiver None => (context, [], false)
  | FromReceiver (Some GotOther) => (context, [], true)
  | FromReceiver (Some (GotDTMessage dtMsg)) =>
      match ActionCallBack !! Action dtMsg with
      | Some fn =>
          let '(context, sends, _) := fn context (Identity dtMsg) (DTMsg dtMsg) in
          (context, sends, true)
      | None => (context, [], true)
      end
  | After60s =>
      let '(context, sends) := checkConfirm context in (context, sends, true)
  | FromHeartBeat None => (context, [], false)
  | FromHeartBeat (Some v) =>
      match HeartBeat context group v with
      | Some _ => (context, [], false)
      | None => (context, [], true)
      end
  end.

(** [Start] over the turns that the [select] takes; the flag tells whether the
    worker is still in its loop when they are used up. *)
Fixpoint Start (group : string) (context : DTContext) (turns : list selected)
    : DTContext * list (string * Msg) * bool :=
  match turns with
  | [] => (context, [], true)
  | sel :: turns' =>
      match Start_turn group context sel with
      | (context', sends, false) => (context', sends, false)
      | (context', sends, true) =>
          let '(context'', sends', running) := Start group context' turns' in
          (context'', (sends ++ sends')%list, running)
      end
  end.

(** The entry that [dealSendToCloud] and [detailRequest] store for a
    message. *)
Definition pending (message : Msg) : DTMessage :=
  {| DTMsg := AnyMessage message; Identity := ""; Action := SendToCloud nm;
     DTType := CommModule nm |}.

(** Every entry of a confirm map is what was stored for a message sent to the
    cloud, under the ID of that message. *)
Definition confirm_ok (m : gmap string confirmValue) : Prop :=
  forall k v, m !! k = Some v ->
    exists message, v = IsDTMessage (pending message) /\ GetID message = k.

End Worker.

End dtmanager.

(** * Service files ([package util]) *)

(** A call into [os]; the functions below return what the call returns. *)
Inductive OsCall :=
| OsWriteFile (name : string) (data : string) (perm : Z)
| OsRemove (name : string).

Module util.

Definition ModePerm : Z := 511.  (* 0777 *)

(** [fmt.Sprintf(serviceFileTemplate, process, execStartCmd)]. *)
Definition serviceFile (process execStartCmd : string) : string :=
  "[Unit]
Description=" ++ process ++ ".service

[Service]
Type=simple
ExecStart=" ++ execStartCmd ++ "
Restart=always
RestartSec=10

[Install]
WantedBy=multi-user.target
".

(** [fmt.Sprintf(alpineServiceFileTemplate, process, execStartCmd)]; the
    template has a double-quote character around each of the two operands,
    written here as character 34. *)
Definition alpineServiceFile (process execStartCmd : string) : string :=
  let q := String (ascii_of_nat 34) EmptyString in
  "
#!/sbin/openrc-run
name=" ++ q ++ process ++ q ++ "
command=" ++ q ++ execStartCmd ++ q ++ "
start_stop_daemon_args=" ++ q ++ "--background" ++ q ++ "
depend() {
    after iptables docker
}
".

Inductive OSService := UbuntuOSService | AlpineOSService.

Definition OSService_GenerateServiceFile (u : OSService)
    (process execStartCmd : string) : OsCall :=
  match u with
  | UbuntuOSService =>
      let filename := process ++ ".service" in
      let content := serviceFile process execStartCmd in
      let serviceFilePath := "/etc/systemd/system/" ++ filename in
      OsWriteFile serviceFilePath content ModePerm
  | AlpineOSService =>
      let content := alpineServiceFile process execStartCmd in
      let serviceFilePath := "/etc/init.d/" ++ process in
      OsWriteFile serviceFilePath content ModePerm
  end.

Definition OSService_RemoveServiceFile (u : OSService) (process : string)
    : OsCall :=
  match u with
  | UbuntuOSService =>
      let filename := process ++ ".service" in
      OsRemove ("/etc/systemd/system/" ++ filename)
  | AlpineOSService => OsRemove ("/etc/init.d/" ++ process)
  end.

(** [IsAlpine] is declared elsewhere in the package; its answer is taken as
    an argument. *)
Definition GenerateServiceFile (IsAlpine : bool) (process execStartCmd : string)
    : OsCall :=
  let osService := if negb IsAlpine then UbuntuOSService else AlpineOSService in
  OSService_GenerateServiceFile osService process execStartCmd.

Definition RemoveServiceFile (IsAlpine : bool) (process : string) : OsCall :=
  let osService := if negb IsAlpine then UbuntuOSService else AlpineOSService in
  OSService_RemoveServiceFile osService process.

End util.

(** * keadm gettoken ([gettoken.go], the first of its two variants) *)

(** [common.GettokenOptions]. *)
Record GettokenOptions := {
  Kubeconfig : string;
  User : string;
  GettokenGroup : string
}.

(** The claims that [generateToken] signs. *)
Record MapClaims := {
  exp : Z;
  claimUser : string;
  claimGroup : string
}.

(** The answers of what the command calls: the clock in seconds
    ([time.Now().Unix()]), [SignedString] of an HS256 token with the given
    claims and key (the string it returns, and its error), [util.KubeClient]
    for a kubeconfig path, and the [Data] of the secret that [Secrets(ns).Get]
    returns with that client; and the names [constants.SystemNamespace],
    [common.TokenSecretName], [common.TokenDataName],
    [common.DefaultKubeConfig]. *)
Record Keadm := {
  nowUnix : Z;
  SignedString : MapClaims -> list byte -> string * option error;
  KubeClient : string -> result string;
  SecretGet : string -> string -> string -> result (gmap string (list byte));
  SystemNamespace : string;
  TokenSecretName : string;
  TokenDataName : string;
  DefaultKubeConfig : string
}.

(** What the command does to the outside: reading a secret, printing. *)
Inductive KeadmEvent :=
| KGetSecret (client namespace name : string)
| KPrint (text : string).

Module gettoken.

(** [generateToken]: the token and what it prints. *)
Definition generateToken (w : Keadm) (cakey : list byte) (user group : string)
    : list byte * list KeadmEvent :=
  let expiresAt := nowUnix w + 2 * 3600 in
  let claims := {| exp := expiresAt; claimUser := user; claimGroup := group |} in
  match SignedString w claims cakey with
  | (tokenString, Some err) =>
      (list_byte_of_string tokenString,
       [KPrint ("generate token err: " ++ error_text err ++ "
")])
  | (tokenString, None) => (list_byte_of_string tokenString, [])
  end.

Definition wrapToken (w : Keadm) (token cakey : list byte)
    (options : GettokenOptions) : list byte * list KeadmEvent :=
  if negb (String.eqb (User options) "")
     || negb (String.eqb (GettokenGroup options) "")
  then
    let caHash := nth 0 (SplitN (string_of_list_byte token) "."%char 2) "" in
    let caHash := caHash ++ "." in
    let '(jwt, out) :=
      generateToken w cakey (User options) (GettokenGroup options) in
    ((list_byte_of_string caHash ++ jwt)%list, out)
  else (token, []).

Definition newGettokenOptions (w : Keadm) : GettokenOptions :=
  {| Kubeconfig := DefaultKubeConfig w; User := ""; GettokenGroup := "" |}.

(** A missing key of [secret.Data] reads as a nil slice. *)
Definition data (d : gmap string (list byte)) (key : string) : list byte :=
  match d !! key with
  | Some b => b
  | None => []
  end.




End gettoken.

(** * More concrete worlds *)

Module Cases.

(** An Application for [apps/v1/deployments/default/web] as it arrives at the
    Center. *)
Definition request (verb : applicationVerb) (token : string) : Application :=
  {| ID := ""; Key := "/apps/v1/deployments/default/web"; Verb := verb;
     Nodename := "edge-node-1"; Status := InApplying; Reason := "";
     Option := []; ReqBody := []; RespBody := []; Subresource := "";
     Error := {| ErrStatus := {| StatusMessage := ""; StatusReason := "";
                                 StatusCode := 0 |} |};
     Token := token; ctx := None; count := 0; timestamp := zeroTime |}.


(** A cloud with the feature gate [gate], whose backend answers [answer] to
    every call, whose filter replaces an object by the node's name, and to
    which the message decodes as [app]. *)
Definition cloud (gate : bool) (answer : result Object) (app : Application)
    : Cloud :=
  {| RequireAuthorization := gate;
     ParseKey := fun _ => (Scenario.deployments, "default", "web");
     Unmarshal_ListOptions :=
       fun _ => Ok {| LabelSelector := ""; FieldSelector := "";
                      ResourceVersion := "" |};
     Unmarshal_GetOptions := fun b => Ok (mkGetOptions b);
     Unmarshal_CreateOptions := fun b => Ok (mkCreateOptions b);
     Unmarshal_DeleteOptions := fun b => Ok (Some (mkDeleteOptions b));
     Unmarshal_UpdateOptions := fun b => Ok (mkUpdateOptions b);
     Unmarshal_PatchInfo :=
       fun b => Ok {| PatchName := "web"; PatchType := "application/merge-patch+json";
                      PatchData := b; PatchOpts := mkPatchOptions [];
                      PatchSubresources := [] |};
     Unmarshal_Unstructured := fun b => Ok (mkObject b);
     SelfSubjectAccessReview :=
       fun _ _ => Ok {| Allowed := true; ReviewReason := "";
                        EvaluationError := "" |};
     Backend := fun _ _ => answer;
     NewSelector := fun ls fs => {| Label := mkLabels ls; Field := andTerm [] |};
     AddListener := fun _ => None;
     MessageFilter := fun _ node => mkObject (list_byte_of_string node);
     Marshal_Object := fun o => match o with mkObject b => Ok b end;
     BuildResource :=
       fun node ns ty id => Ok ("node/" ++ node ++ "/" ++ ns ++ "/" ++ ty ++ "/" ++ id);
     Errorf_format := fun s => s;
     cloud_codec :=
       {| GetContentData := fun _ => Ok [];
          Unmarshal_Application := fun _ => Ok app |} |}.

(** A [model.Message] reduced to what the worker reads of it. *)
Record DtMsg := {
  dtID : string;
  dtParentID : string;
  dtContent : option string
}.

(** The names as strings, all different. *)
Definition names : Names :=
  {| SendToCloud := "SendToCloud"; SendToEdge := "SendToEdge";
     LifeCycle := "LifeCycle"; Confirm := "Confirm";
     Connected := "Connected"; Disconnected := "Disconnected";
     CloudConnected := "cloud_connected";
     CloudDisconnected := "cloud_disconnected";
     HubModule := "websocket"; EventHubModule := "eventbus";
     CommModule := "CommModule" |}.

Definition update : DtMsg :=
  {| dtID := "m-1"; dtParentID := ""; dtContent := Some "twin update" |}.

Definition ack : DtMsg :=
  {| dtID := "m-2"; dtParentID := "m-1"; dtContent := None |}.

Definition up : DtMsg :=
  {| dtID := "m-3"; dtParentID := ""; dtContent := Some "cloud_connected" |}.

Definition detail : DtMsg :=
  {| dtID := "m-4"; dtParentID := "m-3"; dtContent := Some "{}" |}.

(** A worker whose context builds [detail] for every request and whose
    heart beat never fails. *)
Definition worker_context (state : string)
    : dtmanager.DTContext DtMsg :=
  {| dtmanager.State := state; dtmanager.ConfirmMap := ∅;
     dtmanager.NodeName := "edge-node-1" |}.

(** The same worker with [update] sent to the cloud and not yet
    confirmed. *)
Definition waiting (state : string) : dtmanager.DTContext DtMsg :=
  {| dtmanager.State := state;
     dtmanager.ConfirmMap :=
       <["m-1" := dtmanager.IsDTMessage DtMsg
                    (dtmanager.pending DtMsg names update)]> ∅;
     dtmanager.NodeName := "edge-node-1" |}.

Definition dealLifeCycle :=
  dtmanager.dealLifeCycle DtMsg dtID dtParentID dtContent names "uuid-1"
    1700000000000000000 (fun _ => Ok "{}") (fun _ _ _ _ _ _ => detail).

Definition checkConfirm :=
  dtmanager.checkConfirm DtMsg dtID dtParentID dtContent names "uuid-1"
    1700000000000000000 (fun _ => Ok "{}") (fun _ _ _ _ _ _ => detail).

Definition Start :=
  dtmanager.Start DtMsg dtID dtParentID dtContent names "uuid-1"
    1700000000000000000 (fun _ => Ok "{}")
    (fun _ _ _ _ _ _ => detail) (fun _ _ _ => None) "group".

(** A DTMessage with the action [action] and the message [m], as it comes
    out of [ReceiverChan]. *)
Definition got (action : string) (m : DtMsg) : dtmanager.selected DtMsg :=
  dtmanager.FromReceiver DtMsg
    (Some (dtmanager.GotDTMessage DtMsg
             {| dtmanager.DTMsg := dtmanager.AnyMessage DtMsg m;
                dtmanager.Identity := "twin";
                dtmanager.Action := action;
                dtmanager.DTType := "CommModule" |})).

(** The cloud connects, an update goes up, a minute passes, the update is
    confirmed, another minute passes. *)
Definition turns : list (dtmanager.selected DtMsg) :=
  [got "LifeCycle" up; got "SendToCloud" update; dtmanager.After60s DtMsg;
   got "Confirm" ack; dtmanager.After60s DtMsg].

(** A cluster that holds both secrets, and the token of its first one. *)
Definition token : list byte := list_byte_of_string "cafe01.eyJhbGciOi.sig".

Definition keadm : Keadm :=
  {| nowUnix := 1700000000;
     SignedString := fun claims key =>
       ("jwt(" ++ claimUser claims ++ "," ++ claimGroup claims ++ ")", None);
     KubeClient := fun path => Ok ("client:" ++ path);
     SecretGet := fun client ns name =>
       if String.eqb name "casecret"
       then Ok (<["cakeydata" := list_byte_of_string "key"]> ∅)
       else Ok (<["tokendata" := token]> ∅);
     SystemNamespace := "kubeedge";
     TokenSecretName := "tokensecret";
     TokenDataName := "tokendata";
     DefaultKubeConfig := "/root/.kube/config" |}.

Definition options (user group : string) : GettokenOptions :=
  {| Kubeconfig := "/root/.kube/config"; User := user;
     GettokenGroup := group |}.

End Cases.

(** * Properties *)

(** ** The hash on two known inputs *)

Example sha256_abc :
  SHA256.hex (SHA256.Sum256 (list_byte_of_string "abc"))
  = "ba7816bf8f01cfea414140de5dae2223b00361a396177a9cb410ff61f20015ad".
Proof. vm_compute. reflexivity. Qed.

Example sha256_two_blocks :
  SHA256.hex (SHA256.Sum256 (list_byte_of_string
    "aaaaaaaaaaaaaaaaaaaaaaaaaaaaaaaaaaaaaaaaaaaaaaaaaaaaaaaaaaaaaaaaaaaaaa"))
  = "6bd5e5034855a11241f0dee8fc72850ffd9955b28347a86428b5fa19119f6ad0".
Proof. vm_compute. reflexivity. Qed.

(** ** Identifier *)

Lemma Identifier_empty a :
  ID a = "" ->
  Application.Identifier a = (set_ID (Application.digest a) a, Application.digest a).
Proof.
  intros H. unfold Application.Identifier. rewrite H. reflexivity.
Qed.

Lemma Identifier_memo a :
  ID a <> "" -> Application.Identifier a = (a, ID a).
Proof.
  intros H. unfold Application.Identifier.
  destruct (String.eqb_spec (ID a) ""); [contradiction | reflexivity].
Qed.

(** On an Application whose [ID] already is its digest, [Identifier] returns
    it and writes nothing new. *)
Lemma Identifier_stable a :
  ID a = Application.digest a -> Application.Identifier a = (a, Application.digest a).
Proof.
  intros H. unfold Application.Identifier.
  destruct (String.eqb_spec (ID a) "") as [E | E]; simpl.
  - rewrite <- H, E. f_equal.
    destruct a; simpl in *; subst; reflexivity.
  - rewrite H. reflexivity.
Qed.

(** What [Identifier] leaves behind: same fields, the returned [ID]. *)
Lemma Identifier_spec a a' id :
  Application.Identifier a = (a', id) ->
  ID a' = id /\ Application.fingerprint a' = Application.fingerprint a
  /\ Status a' = Status a /\ Reason a' = Reason a /\ RespBody a' = RespBody a
  /\ Error a' = Error a /\ ctx a' = ctx a /\ count a' = count a
  /\ timestamp a' = timestamp a
  /\ (ID a <> "" -> a' = a)
  /\ (ID a = "" -> id = Application.digest a).
Proof.
  unfold Application.Identifier.
  destruct (String.eqb_spec (ID a) "") as [E | E]; simpl; intros [= <- <-];
    repeat split; try reflexivity; try congruence; try contradiction.
Qed.

(** ** The table invariant *)

Lemma lookup_store_eq p app a :
  (p < length (heap a))%nat -> heap (store p app a) !! p = Some app.
Proof. intros H. simpl. by apply list_lookup_insert_eq. Qed.

Lemma lookup_store_ne p q app a :
  p <> q -> heap (store p app a) !! q = heap a !! q.
Proof. intros H. simpl. by apply list_lookup_insert_ne. Qed.

Lemma lookup_store p q app old a :
  heap a !! p = Some old ->
  heap (store p app a) !! q = if decide (p = q) then Some app else heap a !! q.
Proof.
  intros H. case_decide as E.
  - subst q. apply lookup_store_eq. by eapply lookup_lt_Some.
  - by apply lookup_store_ne.
Qed.

(** Writing through a pointer keeps the invariant when the Application keeps
    the identity under which the table holds it. *)
Lemma table_ok_store p new a :
  table_ok a ->
  (forall old, heap a !! p = Some old ->
     ID new = ID old /\ Application.fingerprint new = Application.fingerprint old) ->
  table_ok (store p new a).
Proof.
  intros Hok Hsame k q Hk. simpl in Hk.
  destruct (Hok k q Hk) as (app & Hq & Hid & Hdig).
  destruct (decide (p = q)) as [-> | Hne].
  - exists new. rewrite (lookup_store q q new app a Hq), decide_True by done.
    destruct (Hsame app Hq) as [Hi Hf].
    split; [done |]. split; [congruence |].
    unfold Application.digest in *. rewrite Hf. exact Hdig.
  - exists app. rewrite lookup_store_ne by done. done.
Qed.

Lemma table_ok_new nodeName : table_ok (Agent.NewApplicationAgent nodeName).
Proof. intros k p H. simpl in H. by rewrite lookup_empty in H. Qed.

Lemma newApplication_spec c key verb nodename subresource option reqBody app :
  Application.newApplication c key verb nodename subresource option reqBody = Ok app ->
  exists token,
    AuthorizationValue c = AuthString token
    /\ ID app = "" /\ Key app = key /\ Verb app = verb /\ Nodename app = nodename
    /\ Subresource app = subresource /\ Token app = token
    /\ Option app = toBytes (Application.toV1 option)
    /\ ReqBody app = toBytes reqBody
    /\ Status app = PreApplying /\ ctx app = Some Armed /\ count app = 1.
Proof.
  unfold Application.newApplication.
  destruct (AuthorizationValue c) as [token | ty]; [| discriminate].
  intros [= <-]. exists token. repeat split.
Qed.

(** The Application that a successful [Generate] looks up or stores. *)
Lemma Generate_inv a c verb option obj a' p :
  Agent.Generate a c verb option obj = (a', Ok p) ->
  exists key info app0,
    KeyFuncReq c = Ok key
    /\ RequestInfoFrom c = Some info
    /\ IsResourceRequest info = true
    /\ Application.newApplication c key verb (nodeName a) (InfoSubresource info)
         option obj = Ok app0
    /\ let app := set_ID (Application.digest app0) app0 in
       let id := Application.digest app0 in
       let a1 := set_heap (heap a ++ [app]) a in
       match Applications a !! id with
       | Some q =>
           p = q /\
           match heap a1 !! q with
           | Some stored => a' = store q (Application.add stored) a1
           | None => a' = a1
           end
       | None =>
           p = length (heap a)
           /\ a' = set_Applications (<[id := p]> (Applications a)) a1
       end.
Proof.
  unfold Agent.Generate.
  destruct (KeyFuncReq c) as [key | e] eqn:Hkey; [| discriminate].
  destruct (RequestInfoFrom c) as [info |] eqn:Hinfo; [| discriminate].
  destruct (IsResourceRequest info) eqn:Hres; simpl; [| discriminate].
  destruct (Application.newApplication _ _ _ _ _ _ _) as [app0 | e] eqn:Hnew;
    [| discriminate].
  destruct (newApplication_spec _ _ _ _ _ _ _ _ Hnew) as (token & _ & Hid & _).
  rewrite (Identifier_empty app0 Hid). simpl.
  intros H. exists key, info, app0. repeat split; try done.
  simpl. destruct (Applications a !! Application.digest app0) as [q |] eqn:Hq.
  - simpl. destruct ((heap a ++ [set_ID (Application.digest app0) app0])%list !! q)
      eqn:Hs; injection H as <- <-; done.
  - injection H as <- <-. done.
Qed.

Lemma Generate_error a c verb option obj a' e :
  Agent.Generate a c verb option obj = (a', Err e) -> a' = a.
Proof.
  unfold Agent.Generate.
  destruct (KeyFuncReq c); [| by intros [= <- _]].
  destruct (RequestInfoFrom c) as [info |]; [| by intros [= <- _]].
  destruct (IsResourceRequest info); simpl; [| by intros [= <- _]].
  destruct (Application.newApplication _ _ _ _ _ _ _) as [app0 |];
    [| by intros [= <- _]].
  destruct (Application.Identifier app0) as [app id]. simpl.
  destruct (Applications a !! id); [| discriminate].
  destruct (_ !! _); discriminate.
Qed.

Lemma table_ok_alloc app a :
  table_ok a -> table_ok (set_heap (heap a ++ [app]) a).
Proof.
  intros Hok k p Hk. destruct (Hok k p Hk) as (x & Hp & Hx).
  exists x. split; [| done]. simpl. by apply lookup_app_l_Some.
Qed.

Lemma table_ok_Generate a c verb option obj :
  table_ok a -> table_ok (Agent.Generate a c verb option obj).1.
Proof.
  intros Hok.
  destruct (Agent.Generate a c verb option obj) as [a' [p | e]] eqn:HG; simpl.
  2: { by rewrite (Generate_error _ _ _ _ _ _ _ HG). }
  destruct (Generate_inv _ _ _ _ _ _ _ HG)
    as (key & info & app0 & _ & _ & _ & Hnew & Hcase).
  simpl in Hcase.
  set (app := set_ID (Application.digest app0) app0) in *.
  pose proof (table_ok_alloc app a Hok) as Hok1.
  destruct (Applications a !! Application.digest app0) as [q |] eqn:Hq.
  - destruct Hcase as [-> Hcase].
    destruct ((heap a ++ [app])%list !! q) as [stored |] eqn:Hs; subst a'.
    + apply table_ok_store; [done |].
      intros old Hold. simpl in Hold. rewrite Hs in Hold.
      injection Hold as <-. done.
    + done.
  - destruct Hcase as [-> ->]. intros k p Hk. simpl in Hk.
    destruct (decide (Application.digest app0 = k)) as [<- | Hne].
    + rewrite lookup_insert_eq in Hk. injection Hk as <-.
      exists app. simpl. split; [| done].
      rewrite lookup_app_r by lia. by rewrite Nat.sub_diag.
    + rewrite lookup_insert_ne in Hk by done. by apply Hok1.
Qed.

Lemma table_ok_doApply tr a p :
  table_ok a -> table_ok (Agent.doApply tr a p).
Proof.
  intros Hok. unfold Agent.doApply.
  destruct (heap a !! p) as [app0 |] eqn:Hp; [| done].
  cbv zeta.
  match goal with |- table_ok (store p ?new ?a1) =>
    apply (table_ok_store p new a1) end.
  - exact Hok.
  - simpl. intros old Hold. rewrite Hp in Hold. injection Hold as <-.
    unfold Application.Call.
    destruct (SendSync tr _ _ _) as [resp | err]; simpl.
    + destruct (msgToApplication _ _) as [retApp | err]; simpl;
        destruct (ctx app0); done.
    + destruct (ctx app0); done.
Qed.

Lemma table_ok_Apply_begin a p :
  table_ok a -> table_ok (Agent.Apply_begin a p).1.
Proof.
  intros Hok. unfold Agent.Apply_begin.
  destruct (heap a !! p) as [arg |] eqn:Hp; [| done].
  destruct (Application.Identifier arg) as [arg' id] eqn:Hid.
  destruct (Identifier_spec _ _ _ Hid)
    as (Hi & Hf & _ & _ & _ & _ & _ & _ & _ & Hmemo & Hfresh).
  assert (Hok1 : table_ok (store p arg' a)).
  { intros k q Hk. simpl in Hk.
    destruct (Hok k q Hk) as (app & Hq & Hidk & Hdig).
    destruct (decide (p = q)) as [-> | Hne].
    - rewrite Hp in Hq. injection Hq as ->.
      exists arg'. rewrite lookup_store_eq by (by eapply lookup_lt_Some).
      split; [done |].
      assert (Hd : Application.digest arg' = Application.digest app)
        by (unfold Application.digest; by rewrite Hf).
      rewrite Hd. split; [| done].
      destruct (decide (ID app = "")) as [E | E].
      + rewrite Hi, (Hfresh E). congruence.
      + by rewrite (Hmemo E).
    - exists app. by rewrite lookup_store_ne. }
  destruct (Applications (store p arg' a) !! id) as [q |]; [| done].
  destruct (heap (store p arg' a) !! q) as [app |] eqn:Hq; [| done].
  repeat (match goal with |- context [if ?b then _ else _] => destruct b end);
    simpl; try done.
  apply table_ok_store; [done |].
  intros old Hold. rewrite Hq in Hold. by injection Hold as <-.
Qed.

Lemma table_ok_GC since a : table_ok a -> table_ok (Agent.GC since a).
Proof.
  intros Hok k p Hk. unfold Agent.GC in Hk. simpl in Hk.
  apply map_lookup_filter_Some in Hk as [Hk _]. by apply Hok.
Qed.

Lemma Close_identity now app :
  ID (Application.Close now app) = ID app
  /\ Application.fingerprint (Application.Close now app)
     = Application.fingerprint app.
Proof.
  unfold Application.Close. destruct (count app =? 0); [done |].
  cbv zeta. destruct (_ =? 0); done.
Qed.

Lemma table_ok_Close now p a : table_ok a -> table_ok (Close_at now p a).
Proof.
  intros Hok. unfold Close_at.
  destruct (heap a !! p) as [app |] eqn:Hp; [| done].
  apply table_ok_store; [done |].
  intros old Hold. rewrite Hp in Hold. injection Hold as <-.
  apply Close_identity.
Qed.

(** The invariant holds in every state the Agent goes through. *)
Lemma reachable_table_ok n a : reachable n a -> table_ok a.
Proof.
  induction 1;
    auto using table_ok_new, table_ok_Generate, table_ok_Apply_begin,
      table_ok_doApply, table_ok_GC, table_ok_Close.
Qed.

Lemma Generate_nodeName a c verb option obj :
  nodeName (Agent.Generate a c verb option obj).1 = nodeName a.
Proof.
  destruct (Agent.Generate a c verb option obj) as [a' [q | e]] eqn:HG; simpl.
  - destruct (Generate_inv _ _ _ _ _ _ _ HG)
      as (key & info & app0 & _ & _ & _ & _ & Hcase). simpl in Hcase.
    destruct (Applications a !! Application.digest app0) as [q' |].
    + destruct Hcase as [_ Hcase].
      destruct ((heap a ++ [set_ID (Application.digest app0) app0])%list !! q');
        by subst a'.
    + by destruct Hcase as [_ ->].
  - by rewrite (Generate_error _ _ _ _ _ _ _ HG).
Qed.

Lemma Apply_begin_nodeName a p :
  nodeName (Agent.Apply_begin a p).1 = nodeName a.
Proof.
  unfold Agent.Apply_begin. destruct (heap a !! p) as [arg |]; [| done].
  destruct (Application.Identifier arg) as [arg' id].
  destruct (Applications _ !! id) as [q |]; [| done].
  destruct (heap _ !! q) as [app |]; [| done].
  repeat (match goal with |- context [if ?b then _ else _] => destruct b end);
    reflexivity.
Qed.

(** The Agent keeps its node name. *)
Lemma reachable_nodeName n a : reachable n a -> nodeName a = n.
Proof.
  induction 1; try done.
  - by rewrite Generate_nodeName.
  - by rewrite Apply_begin_nodeName.
  - unfold Agent.doApply. by destruct (heap a !! p).
  - unfold Close_at. by destruct (heap a !! p).
Qed.

(** ** Generate *)

(** After a successful [Generate] the returned pointer is the table's entry
    for the request's digest. *)
Lemma Generate_registered a c verb option obj a1 p1 :
  table_ok a ->
  Agent.Generate a c verb option obj = (a1, Ok p1) ->
  exists key info app0 app1,
    KeyFuncReq c = Ok key /\ RequestInfoFrom c = Some info
    /\ Application.newApplication c key verb (nodeName a) (InfoSubresource info)
         option obj = Ok app0
    /\ Applications a1 !! Application.digest app0 = Some p1
    /\ heap a1 !! p1 = Some app1
    /\ nodeName a1 = nodeName a.
Proof.
  intros Hok HG.
  destruct (Generate_inv _ _ _ _ _ _ _ HG)
    as (key & info & app0 & Hkey & Hinfo & _ & Hnew & Hcase).
  simpl in Hcase. exists key, info, app0.
  destruct (Applications a !! Application.digest app0) as [q |] eqn:Hq.
  - destruct Hcase as [-> Hcase].
    destruct (Hok _ _ Hq) as (stored & Hs & _).
    rewrite (lookup_app_l_Some _ _ _ _ Hs) in Hcase. subst a1.
    exists (Application.add stored). repeat split; try done.
    apply lookup_store_eq. simpl. rewrite length_app.
    apply lookup_lt_Some in Hs. lia.
  - destruct Hcase as [-> ->].
    exists (set_ID (Application.digest app0) app0). repeat split; try done.
    + simpl. by rewrite lookup_insert_eq.
    + simpl. rewrite lookup_app_r by lia. by rewrite Nat.sub_diag.
Qed.

(** [Generate] on a request whose digest is in the table: the stored instance
    is returned with one more reference, and the table is left alone. *)
Lemma Generate_hit a c verb option obj key info app0 q stored :
  KeyFuncReq c = Ok key ->
  RequestInfoFrom c = Some info ->
  IsResourceRequest info = true ->
  Application.newApplication c key verb (nodeName a) (InfoSubresource info)
    option obj = Ok app0 ->
  Applications a !! Application.digest app0 = Some q ->
  heap a !! q = Some stored ->
  Agent.Generate a c verb option obj
  = (store q (Application.add stored)
       (set_heap (heap a ++ [set_ID (Application.digest app0) app0]) a), Ok q).
Proof.
  intros Hkey Hinfo Hres Hnew Hq Hs. unfold Agent.Generate.
  rewrite Hkey, Hinfo, Hres. simpl. rewrite Hnew.
  destruct (newApplication_spec _ _ _ _ _ _ _ _ Hnew) as (token & _ & Hid & _).
  rewrite (Identifier_empty app0 Hid). simpl. rewrite Hq.
  by rewrite (lookup_app_l_Some _ _ _ _ Hs).
Qed.

(** Requests with the same identity-forming fields have the same digest. *)
Lemma newApplication_digest c1 c2 key verb nodename subresource
    option1 obj1 option2 obj2 app1 app2 :
  AuthorizationValue c2 = AuthorizationValue c1 ->
  toBytes (Application.toV1 option2) = toBytes (Application.toV1 option1) ->
  toBytes obj2 = toBytes obj1 ->
  Application.newApplication c1 key verb nodename subresource option1 obj1 = Ok app1 ->
  Application.newApplication c2 key verb nodename subresource option2 obj2 = Ok app2 ->
  Application.digest app2 = Application.digest app1.
Proof.
  intros Hauth Hopt Hobj H1 H2.
  destruct (newApplication_spec _ _ _ _ _ _ _ _ H1)
    as (t1 & Ht1 & _ & K1 & V1 & N1 & S1 & T1 & O1 & B1 & _).
  destruct (newApplication_spec _ _ _ _ _ _ _ _ H2)
    as (t2 & Ht2 & _ & K2 & V2 & N2 & S2 & T2 & O2 & B2 & _).
  assert (t2 = t1) by congruence.
  unfold Application.digest, Application.fingerprint.
  rewrite K1, V1, N1, S1, T1, O1, B1, K2, V2, N2, S2, T2, O2, B2.
  congruence.
Qed.

(** Two table entries whose Applications have the same identity-forming bytes
    are one entry. *)
Lemma table_ok_unique a k1 q1 x1 k2 q2 x2 :
  table_ok a ->
  Applications a !! k1 = Some q1 -> heap a !! q1 = Some x1 ->
  Applications a !! k2 = Some q2 -> heap a !! q2 = Some x2 ->
  Application.fingerprint x1 = Application.fingerprint x2 ->
  k1 = k2 /\ q1 = q2.
Proof.
  intros Hok Hk1 Hx1 Hk2 Hx2 Hf.
  destruct (Hok _ _ Hk1) as (y1 & Hy1 & _ & D1).
  destruct (Hok _ _ Hk2) as (y2 & Hy2 & _ & D2).
  assert (k1 = k2).
  { rewrite D1, D2. unfold Application.digest. congruence. }
  subst k2. split; [done | congruence].
Qed.

(** C1.  Deduplication.  Take a call of [Generate] that returns the pointer
    [p1], and a later call, in any state the Agent has gone through since in
    which the table still holds [p1] under its identifier, whose request has
    the same identity-forming fields (node name of the Agent, key, verb,
    serialized option, serialized body, subresource, token).  The later call
    returns [p1] itself; the instance behind it has its reference count
    incremented by one (in [uint64]); the table is unchanged, so no second
    entry is made; and no two entries of the table hold Applications with the
    same identity-forming bytes. *)
Theorem C1_generate_deduplicates
    n a c1 c2 verb option1 obj1 option2 obj2 a1 p1 app1 later a2 p2 :
  reachable n a ->
  Agent.Generate a c1 verb option1 obj1 = (a1, Ok p1) ->
  heap a1 !! p1 = Some app1 ->
  KeyFuncReq c2 = KeyFuncReq c1 ->
  InfoSubresource <$> RequestInfoFrom c2 = InfoSubresource <$> RequestInfoFrom c1 ->
  AuthorizationValue c2 = AuthorizationValue c1 ->
  toBytes (Application.toV1 option2) = toBytes (Application.toV1 option1) ->
  toBytes obj2 = toBytes obj1 ->
  reachable n later ->
  Applications later !! ID app1 = Some p1 ->
  Agent.Generate later c2 verb option2 obj2 = (a2, Ok p2) ->
  p2 = p1
  /\ Applications a2 = Applications later
  /\ Applications a1 !! ID app1 = Some p1
  /\ (exists stored,
        heap later !! p1 = Some stored
        /\ heap a2 !! p1 = Some (Application.add stored)
        /\ count (Application.add stored) = uint64 (count stored + 1)
        /\ (0 <= count stored < 2 ^ 64 - 1 ->
            count (Application.add stored) = count stored + 1))
  /\ (forall k q x k' q' x',
        Applications a2 !! k = Some q -> heap a2 !! q = Some x ->
        Applications a2 !! k' = Some q' -> heap a2 !! q' = Some x' ->
        Application.fingerprint x = Application.fingerprint x' ->
        k = k' /\ q = q').
Proof.
  intros Hreach HG1 Happ1 Hkey Hsub Hauth Hopt Hobj Hlater Hstill HG2.
  assert (Hnode : nodeName later = nodeName a)
    by (by rewrite (reachable_nodeName n a), (reachable_nodeName n later)).
  pose proof (reachable_table_ok n a Hreach) as Hok.
  pose proof (table_ok_Generate a c1 verb option1 obj1 Hok) as Hok1.
  rewrite HG1 in Hok1. simpl in Hok1.
  pose proof (reachable_table_ok n later Hlater) as HokL.
  pose proof (table_ok_Generate later c2 verb option2 obj2 HokL) as Hok2.
  rewrite HG2 in Hok2. simpl in Hok2.
  destruct (Generate_registered _ _ _ _ _ _ _ Hok HG1)
    as (key & info & app0 & app1' & Hk1 & Hi1 & Hnew1 & Hreg & Hp1 & _).
  assert (app1' = app1) by congruence. subst app1'.
  destruct (Hok1 _ _ Hreg) as (y & Hy & Hidy & _).
  assert (y = app1) by congruence. subst y.
  rewrite Hidy in Hstill.
  destruct (Generate_inv _ _ _ _ _ _ _ HG2)
    as (key2 & info2 & app0' & Hk2 & Hi2 & Hres2 & Hnew2 & _).
  assert (key2 = key) by congruence. subst key2.
  assert (Hs : InfoSubresource info2 = InfoSubresource info).
  { rewrite Hi1, Hi2 in Hsub. simpl in Hsub. congruence. }
  rewrite Hs, Hnode in Hnew2.
  pose proof (newApplication_digest _ _ _ _ _ _ _ _ _ _ _ _
                Hauth Hopt Hobj Hnew1 Hnew2) as Hd.
  rewrite <- Hd in Hstill.
  rewrite <- Hs, <- Hnode in Hnew2.
  destruct (HokL _ _ Hstill) as (stored & Hst & _).
  rewrite (Generate_hit _ _ _ _ _ _ _ _ _ _ Hk2 Hi2 Hres2 Hnew2 Hstill Hst) in HG2.
  injection HG2 as <- <-.
  split; [done |]. split; [done |]. split; [by rewrite Hidy |]. split.
  - exists stored. split; [done |]. split.
    + apply lookup_store_eq. simpl. rewrite length_app.
      apply lookup_lt_Some in Hst. lia.
    + split; [done |]. intros Hr. simpl. unfold uint64.
      apply Z.mod_small. lia.
  - intros k q x k' q' x'. by apply table_ok_unique.
Qed.

Lemma C1_generate_deduplicates_witness :
  Applications Scenario.twice = Applications Scenario.once
  /\ (exists stored,
        heap Scenario.once !! 0%nat = Some stored
        /\ heap Scenario.twice !! 0%nat = Some (Application.add stored)).
Proof.
  assert (H0 : reachable "edge-node-1" Scenario.edge) by constructor.
  assert (H1 : Agent.Generate Scenario.edge (Scenario.request "" "Bearer abc")
                 Get INil INil = (Scenario.once, Ok 0%nat))
    by (vm_compute; reflexivity).
  assert (HL : reachable "edge-node-1" Scenario.once)
    by exact (reach_Generate _ _ (Scenario.request "" "Bearer abc") Get INil INil H0).
  assert (H2 : Agent.Generate Scenario.once (Scenario.request "" "Bearer abc")
                 Get INil INil = (Scenario.twice, Ok 0%nat))
    by (vm_compute; reflexivity).
  assert (Ha : exists app1, heap Scenario.once !! 0%nat = Some app1
                 /\ Applications Scenario.once !! ID app1 = Some 0%nat).
  { eexists. split; vm_compute; reflexivity. }
  destruct Ha as (app1 & Ha & Hs).
  destruct (C1_generate_deduplicates _ _ _ _ _ _ _ _ _ _ _ _ _ _ _ H0 H1 Ha
              eq_refl eq_refl eq_refl eq_refl eq_refl HL Hs H2)
    as (_ & Htbl & _ & (stored & Hx & Hy & _) & _).
  split; [exact Htbl |]. exists stored. split; [exact Hx | exact Hy].
Defined.

(** ** Reference count, Reset, GC *)

(** C6.  [add] increments the reference count by one ([uint64] arithmetic);
    [Close] on a positive count decrements it by one and stamps the timestamp,
    sets Status to Completed when the decremented count is zero and leaves
    Status alone when it is not; on a zero count [Close] does nothing. *)
Theorem C6_add_close (a : Application) (now : Time) :
  0 <= count a < 2 ^ 64 ->
  count (Application.add a) = uint64 (count a + 1)
  /\ (count a < 2 ^ 64 - 1 -> count (Application.add a) = count a + 1)
  /\ Status (Application.add a) = Status a
  /\ timestamp (Application.add a) = timestamp a
  /\ (0 < count a ->
      count (Application.Close now a) = count a - 1
      /\ timestamp (Application.Close now a) = now
      /\ (count a - 1 = 0 -> Status (Application.Close now a) = Completed)
      /\ (count a - 1 <> 0 -> Status (Application.Close now a) = Status a))
  /\ (count a = 0 -> Application.Close now a = a).
Proof.
  intros Hr. split; [reflexivity |]. split.
  { intros H. simpl. unfold uint64. apply Z.mod_small. lia. }
  split; [reflexivity |]. split; [reflexivity |]. split.
  - intros Hpos. unfold Application.Close.
    destruct (Z.eqb_spec (count a) 0) as [E | E]; [lia |]. cbv zeta.
    assert (Hm : uint64 (count a - 1) = count a - 1)
      by (unfold uint64; apply Z.mod_small; lia).
    simpl. rewrite Hm.
    destruct (Z.eqb_spec (count a - 1) 0) as [E1 | E1]; simpl; rewrite ?Hm;
      repeat split; try reflexivity; try lia; try congruence.
  - intros E. unfold Application.Close. by rewrite E.
Qed.

Lemma C6_add_close_witness :
  count (Application.add Scenario.app_ab) = 2
  /\ count (Application.Close 1000 Scenario.app_ab) = 0
  /\ timestamp (Application.Close 1000 Scenario.app_ab) = 1000
  /\ Status (Application.Close 1000 Scenario.app_ab) = Completed.
Proof.
  assert (Hr : 0 <= count Scenario.app_ab < 2 ^ 64) by (simpl; lia).
  destruct (C6_add_close Scenario.app_ab 1000 Hr) as (_ & Hadd & _ & _ & Hclose & _).
  split; [apply Hadd; simpl; lia |].
  destruct Hclose as (Hc & Ht & Hs & _); [simpl; lia |].
  split; [exact Hc |]. split; [exact Ht |]. apply Hs. reflexivity.
Defined.

(** C9.  [Reset] on a Completed Application empties [Reason] and [RespBody]
    and arms a fresh completion signal; Status, the reference count and the
    identity-forming fields keep their values (and so do [Error] and the
    timestamp). *)
Theorem C9_Reset_frame (a : Application) :
  Status a = Completed ->
  Reason (Application.Reset a) = ""
  /\ RespBody (Application.Reset a) = []
  /\ ctx (Application.Reset a) = Some Armed
  /\ Application.Wait_returns (Application.Reset a) = false
  /\ Status (Application.Reset a) = Completed
  /\ count (Application.Reset a) = count a
  /\ ID (Application.Reset a) = ID a
  /\ Key (Application.Reset a) = Key a
  /\ Verb (Application.Reset a) = Verb a
  /\ Nodename (Application.Reset a) = Nodename a
  /\ Subresource (Application.Reset a) = Subresource a
  /\ Option (Application.Reset a) = Option a
  /\ ReqBody (Application.Reset a) = ReqBody a
  /\ Token (Application.Reset a) = Token a
  /\ Error (Application.Reset a) = Error a
  /\ timestamp (Application.Reset a) = timestamp a.
Proof.
  intros H. unfold Application.Reset, Application.Wait_returns. simpl.
  rewrite H. repeat split.
Qed.

Lemma C9_Reset_frame_witness :
  Reason (Application.Reset Scenario.idle) = ""
  /\ Status (Application.Reset Scenario.idle) = Completed.
Proof.
  assert (H : Status Scenario.idle = Completed) by reflexivity.
  destruct (C9_Reset_frame Scenario.idle H) as (Hr & _ & _ & _ & Hs & _).
  split; [exact Hr | exact Hs].
Defined.

Lemma Sub_lt now t d :
  d <= maxDuration -> minDuration < d -> (Sub now t < d <-> now - t < d).
Proof.
  unfold Sub, minDuration, maxDuration. intros H1 H2.
  destruct (Z.ltb_spec (now - t) (- 2 ^ 63));
    [| destruct (Z.ltb_spec (2 ^ 63 - 1) (now - t))]; lia.
Qed.

Lemma LastCloseTime_referenced app :
  count app <> 0 -> Application.LastCloseTime app = zeroTime.
Proof.
  intros H. unfold Application.LastCloseTime.
  destruct (Z.eqb_spec (count app) 0); [contradiction | reflexivity].
Qed.

Lemma LastCloseTime_idle app :
  count app = 0 -> Application.LastCloseTime app = timestamp app.
Proof.
  intros H. unfold Application.LastCloseTime, IsZero, zeroTime. rewrite H. simpl.
  destruct (Z.eqb_spec (timestamp app) 0); simpl; congruence.
Qed.

(** The [Close] of the last holder leaves the count at zero and its own time
    as timestamp. *)
Lemma Close_last t app :
  count app = 1 ->
  count (Application.Close t app) = 0 /\ timestamp (Application.Close t app) = t.
Proof.
  intros H. unfold Application.Close. rewrite H. simpl. rewrite H. simpl.
  split; reflexivity.
Qed.

Lemma GC_lookup since a k :
  Applications (Agent.GC since a) !! k
  = match Applications a !! k with
    | Some p => if Agent.GC_deletes since a k p then None else Some p
    | None => None
    end.
Proof.
  unfold Agent.GC. simpl.
  destruct (Applications a !! k) as [p |] eqn:Hk.
  - destruct (Agent.GC_deletes since a k p) eqn:Hd.
    + apply map_lookup_filter_None. right. intros q Hq. simpl.
      assert (q = p) by congruence. subst q. by rewrite Hd.
    + apply map_lookup_filter_Some. done.
  - apply map_lookup_filter_None. by left.
Qed.

(** C7.  For an entry of the table: [GC] keeps it while the reference count is
    positive (its [LastCloseTime] is then the zero time, whatever the clock
    says), keeps it while the count is zero and less than five minutes have
    passed since the timestamp, which is the time of the [Close] that took the
    count to zero, and removes it exactly when its [LastCloseTime] is not the
    zero time and [time.Since] of it is at least five minutes.  Absent keys
    stay absent and no Application is touched. *)
Theorem C7_GC_exact since now (a : Agent) k p app :
  Applications a !! k = Some p ->
  heap a !! p = Some app ->
  (0 < count app ->
     Application.LastCloseTime app = zeroTime
     /\ Applications (Agent.GC since a) !! k = Some p)
  /\ (count app = 0 -> since k (timestamp app) < 5 * Minute ->
      Applications (Agent.GC since a) !! k = Some p)
  /\ (count app = 0 -> now - timestamp app < 5 * Minute ->
      Applications (Agent.GC (fun _ => Since now) a) !! k = Some p)
  /\ (forall t app0,
        count app0 = 1 -> app = Application.Close t app0 ->
        now - t < 5 * Minute ->
        Applications (Agent.GC (fun _ => Since now) a) !! k = Some p)
  /\ (Applications (Agent.GC since a) !! k = None
      <-> Application.LastCloseTime app <> zeroTime
          /\ 5 * Minute <= since k (Application.LastCloseTime app))
  /\ (Applications (Agent.GC since a) !! k = None
      \/ Applications (Agent.GC since a) !! k = Some p)
  /\ (forall k', Applications a !! k' = None ->
                 Applications (Agent.GC since a) !! k' = None)
  /\ heap (Agent.GC since a) = heap a.
Proof.
  intros Hk Hp.
  assert (Hdel : forall s, Agent.GC_deletes s a k p = true
            <-> Application.LastCloseTime app <> zeroTime
                /\ 5 * Minute <= s k (Application.LastCloseTime app)).
  { intros s. unfold Agent.GC_deletes, IsZero, zeroTime. rewrite Hp.
    rewrite andb_true_iff, negb_true_iff, Z.eqb_neq, Z.leb_le. done. }
  assert (Hkeep : forall s, Agent.GC_deletes s a k p = false ->
            Applications (Agent.GC s a) !! k = Some p).
  { intros s H. by rewrite GC_lookup, Hk, H. }
  assert (Hnot : forall s, ~ (Application.LastCloseTime app <> zeroTime
                 /\ 5 * Minute <= s k (Application.LastCloseTime app)) ->
                 Agent.GC_deletes s a k p = false).
  { intros s H. destruct (Agent.GC_deletes s a k p) eqn:E; [| done].
    apply Hdel in E. contradiction. }
  assert (Hidle : count app = 0 -> now - timestamp app < 5 * Minute ->
            Applications (Agent.GC (fun _ => Since now) a) !! k = Some p).
  { intros H0 Hlt. apply Hkeep, Hnot. rewrite LastCloseTime_idle by done.
    unfold Since. intros [_ Hge].
    assert (Sub now (timestamp app) < 5 * Minute); [| lia].
    apply Sub_lt; [unfold maxDuration, Minute; lia
                  | unfold minDuration, Minute; lia | done]. }
  repeat split.
  - apply LastCloseTime_referenced. lia.
  - apply Hkeep, Hnot. rewrite LastCloseTime_referenced by lia. tauto.
  - intros H0 Hlt. apply Hkeep, Hnot. rewrite LastCloseTime_idle by done. lia.
  - intros H0 Hlt. by apply Hidle.
  - intros t app0 H1 -> Hlt.
    destruct (Close_last t app0 H1) as [Hc Ht].
    apply Hidle; [exact Hc | by rewrite Ht].
  - rewrite GC_lookup, Hk in H.
    destruct (Agent.GC_deletes since a k p) eqn:E; [| discriminate].
    by apply Hdel in E as [? ?].
  - rewrite GC_lookup, Hk in H.
    destruct (Agent.GC_deletes since a k p) eqn:E; [| discriminate].
    by apply Hdel in E as [? ?].
  - intros H. rewrite GC_lookup, Hk.
    apply Hdel in H. by rewrite H.
  - rewrite GC_lookup, Hk. destruct (Agent.GC_deletes since a k p); auto.
  - intros k' H. by rewrite GC_lookup, H.
Qed.

Lemma C7_GC_exact_witness :
  Applications (Agent.GC (fun _ => Since 1500) Scenario.sweeping) !! "k" = Some 0%nat
  /\ Applications (Agent.GC (fun _ => Since (1000 + 5 * Minute)) Scenario.sweeping)
       !! "k" = None.
Proof.
  assert (Hk : Applications Scenario.sweeping !! "k" = Some 0%nat)
    by (vm_compute; reflexivity).
  assert (Hp : heap Scenario.sweeping !! 0%nat = Some Scenario.idle) by reflexivity.
  split.
  - destruct (C7_GC_exact (fun _ => Since 1500) 1500 _ _ _ _ Hk Hp)
      as (_ & _ & Hkeep & _).
    apply Hkeep; [reflexivity | vm_compute; reflexivity].
  - destruct (C7_GC_exact (fun _ => Since (1000 + 5 * Minute)) 0 _ _ _ _ Hk Hp)
      as (_ & _ & _ & _ & Hdel & _).
    apply Hdel. split; vm_compute; discriminate.
Defined.

(** ** The fingerprint has no separators *)

(** C10.  [Identifier] on an Application without memoized [ID] is the hash of
    the bare concatenation of Nodename, Key, Verb, Option, ReqBody,
    Subresource and Token; the Application with Nodename ["ab"] and empty Key
    and the one with Nodename ["a"] and Key ["b"], equal elsewhere, have the
    same identifier; and [Generate] hands a request with subresource
    ["status"] and token ["Bearer abc"] and a request with no subresource and
    token ["statusBearer abc"] the same Application, under one table entry. *)
Theorem C10_identifier_collision :
  (forall a, ID a = "" ->
     (Application.Identifier a).2
     = SHA256.hex (SHA256.Sum256
         (list_byte_of_string (Nodename a) ++ list_byte_of_string (Key a)
            ++ list_byte_of_string (Verb a) ++ Option a ++ ReqBody a
            ++ list_byte_of_string (Subresource a)
            ++ list_byte_of_string (Token a))))
  /\ (exists a1 a2,
        Nodename a1 = "ab" /\ Key a1 = "" /\ Nodename a2 = "a" /\ Key a2 = "b"
        /\ ID a1 = "" /\ ID a2 = ""
        /\ Verb a1 = Verb a2 /\ Option a1 = Option a2 /\ ReqBody a1 = ReqBody a2
        /\ Subresource a1 = Subresource a2 /\ Token a1 = Token a2
        /\ (Nodename a1, Key a1) <> (Nodename a2, Key a2)
        /\ (Application.Identifier a1).2 = (Application.Identifier a2).2)
  /\ (exists a1 a2 p,
        Scenario.request "status" "Bearer abc" <> Scenario.request "" "statusBearer abc"
        /\ Agent.Generate Scenario.edge (Scenario.request "status" "Bearer abc")
             Update INil INil = (a1, Ok p)
        /\ Agent.Generate a1 (Scenario.request "" "statusBearer abc")
             Update INil INil = (a2, Ok p)
        /\ Applications a2 = Applications a1
        /\ size (Applications a2) = 1%nat
        /\ (count <$> heap a2 !! p) = Some 2).
Proof.
  split; [| split].
  - intros a H. by rewrite (Identifier_empty a H).
  - exists Scenario.app_ab, Scenario.app_a_b.
    do 11 (split; [reflexivity |]).
    split; [discriminate | vm_compute; reflexivity].
  - exists Scenario.merged1, Scenario.merged2, 0%nat.
    split; [discriminate |].
    split; [vm_compute; reflexivity |].
    split; [vm_compute; reflexivity |].
    split; [vm_compute; reflexivity |].
    split; vm_compute; reflexivity.
Qed.

Lemma C10_identifier_collision_witness :
  (Application.Identifier Scenario.app_ab).2
  = SHA256.hex (SHA256.Sum256 (list_byte_of_string "abgetBearer abc")).
Proof.
  destruct C10_identifier_collision as (H & _).
  exact (H Scenario.app_ab eq_refl).
Defined.

(** ** Apply and doApply *)

Lemma store_same p app a : heap a !! p = Some app -> store p app a = a.
Proof.
  intros H. destruct a as [h t n s]. unfold store, set_heap. simpl in *.
  f_equal. by apply list_insert_id.
Qed.



Lemma Call_fires x : ctx x <> None -> ctx (Application.Call x) = Some Fired.
Proof.
  unfold Application.Call. destruct (ctx x); [reflexivity | contradiction].
Qed.


(** Writing an Application that has a context keeps every allocated
    Application with one. *)
Lemma store_ctx p new a :
  (forall q app, heap a !! q = Some app -> ctx app <> None) ->
  ctx new <> None ->
  forall q app, heap (store p new a) !! q = Some app -> ctx app <> None.
Proof.
  intros Hall Hnew q app Hq. simpl in Hq.
  apply list_lookup_insert_Some in Hq as [(-> & <- & _) | [_ Hq]]; eauto.
Qed.

(** Every Application the Agent has allocated carries a context: it gets one
    in [newApplication] and [Reset] gives it a new one. *)
Lemma reachable_ctx n a :
  reachable n a -> forall q app, heap a !! q = Some app -> ctx app <> None.
Proof.
  induction 1 as [| a c verb option obj _ IH | a p _ IH | tr a p _ IH
                  | since a _ IH | now p a _ IH]; intros q app Hq.
  - simpl in Hq. by rewrite lookup_nil in Hq.
  - destruct (Agent.Generate a c verb option obj) as [a' [r | e]] eqn:HG;
      simpl in Hq.
    2: { rewrite (Generate_error _ _ _ _ _ _ _ HG) in Hq. eauto. }
    destruct (Generate_inv _ _ _ _ _ _ _ HG)
      as (key & info & app0 & _ & _ & _ & Hnew & Hcase). simpl in Hcase.
    destruct (newApplication_spec _ _ _ _ _ _ _ _ Hnew)
      as (token & _ & _ & _ & _ & _ & _ & _ & _ & _ & _ & Hctx & _).
    assert (IH1 : forall q app,
              (heap a ++ [set_ID (Application.digest app0) app0])%list !! q
              = Some app -> ctx app <> None).
    { intros q' x Hx. apply lookup_app_Some in Hx as [Hx | [_ Hx]]; [eauto |].
      apply list_lookup_singleton_Some in Hx as [_ <-]. simpl.
      by rewrite Hctx. }
    destruct (Applications a !! Application.digest app0) as [q' |].
    + destruct Hcase as [_ Hcase].
      destruct ((heap a ++ [set_ID (Application.digest app0) app0])%list !! q')
        as [stored |] eqn:Hs; subst a'.
      * eapply store_ctx; [| | exact Hq]; [exact IH1 |].
        simpl. by apply (IH1 q').
      * eauto.
    + destruct Hcase as [_ ->]. eauto.
  - revert Hq. unfold Agent.Apply_begin.
    destruct (heap a !! p) as [arg |] eqn:Hp; [| by eauto].
    destruct (Application.Identifier arg) as [arg' id] eqn:Hid.
    destruct (Identifier_spec _ _ _ Hid)
      as (_ & _ & _ & _ & _ & _ & Hc & _).
    assert (IH1 : forall q app, heap (store p arg' a) !! q = Some app ->
                                ctx app <> None).
    { apply store_ctx; [exact IH |]. rewrite Hc. eauto. }
    destruct (Applications _ !! id) as [q' |]; [| by eauto].
    destruct (heap _ !! q') as [x |] eqn:Hx; [| by eauto].
    repeat (match goal with |- context [if ?b then _ else _] => destruct b end);
      simpl; try (by eauto).
    intros Hq. eapply (store_ctx q' (Application.Reset x) (store p arg' a));
      [exact IH1 | discriminate | exact Hq].
  - revert Hq. unfold Agent.doApply.
    destruct (heap a !! p) as [app0 |] eqn:Hp; [| by eauto].
    cbv zeta. intros Hq. eapply store_ctx; [| | exact Hq]; [exact IH |].
    pose proof (IH _ _ Hp) as Hc. unfold Application.Call.
    destruct (SendSync tr _ _ _) as [resp | err];
      [destruct (msgToApplication _ _) |]; simpl;
      destruct (ctx app0); try contradiction; discriminate.
  - eauto.
  - revert Hq. unfold Close_at.
    destruct (heap a !! p) as [x |] eqn:Hp; [| by eauto].
    intros Hq. eapply store_ctx; [| | exact Hq]; [exact IH |].
    pose proof (IH _ _ Hp) as Hc. unfold Application.Close.
    destruct (count x =? 0); [done |]. cbv zeta.
    destruct (_ =? 0); done.
Qed.

(** C4.  For an Application of the Agent: when [SendSync] comes back with an
    error (a timeout is one), or with a reply from which no Application can be
    decoded, [doApply] leaves the Application Failed, with a Reason that ends
    in the error's text, and with the completion signal fired by the deferred
    [Call], so that [Wait] returns; the Application is not left InApplying.
    (On a reply that decodes, the signal is fired as well and Status and
    Reason are the reply's.) *)
Theorem C4_doApply_failure n tr (a : Agent) p app err :
  reachable n a ->
  heap a !! p = Some app ->
  let msg := Agent.applyMessage (set_Status InApplying app) in
  let timeout := 10 * 1000000000 in
  (SendSync tr EdgeHubModuleName msg timeout = Err err ->
     exists app',
       heap (Agent.doApply tr a p) !! p = Some app'
       /\ Status app' = Failed
       /\ Reason app' = "failed to access cloud Application center: " ++ error_text err
       /\ ctx app' = Some Fired
       /\ Application.Wait_returns app' = true
       /\ Status app' <> InApplying)
  /\ (forall resp,
        SendSync tr EdgeHubModuleName msg timeout = Ok resp ->
        msgToApplication (codec tr) resp = Err err ->
        exists app',
          heap (Agent.doApply tr a p) !! p = Some app'
          /\ Status app' = Failed
          /\ Reason app' = "failed to get Application from resp msg: " ++ error_text err
          /\ ctx app' = Some Fired
          /\ Application.Wait_returns app' = true
          /\ Status app' <> InApplying)
  /\ (forall resp retApp,
        SendSync tr EdgeHubModuleName msg timeout = Ok resp ->
        msgToApplication (codec tr) resp = Ok retApp ->
        exists app',
          heap (Agent.doApply tr a p) !! p = Some app'
          /\ Status app' = Status retApp
          /\ Reason app' = Reason retApp
          /\ ctx app' = Some Fired
          /\ Application.Wait_returns app' = true).
Proof.
  intros Hreach Hp msg timeout.
  pose proof (reachable_ctx n a Hreach p app Hp) as Hctx.
  assert (Hlt : (p < length (heap a))%nat) by (by eapply lookup_lt_Some).
  split; [| split].
  - intros Hsend. unfold Agent.doApply. rewrite Hp. cbv zeta.
    fold msg. fold timeout. rewrite Hsend.
    eexists. split; [apply lookup_store_eq; simpl; exact Hlt |].
    unfold Application.Call. simpl.
    destruct (ctx app) eqn:E; [| contradiction]. simpl. rewrite ?E.
    repeat split. discriminate.
  - intros resp Hsend Hdec. unfold Agent.doApply. rewrite Hp. cbv zeta.
    fold msg. fold timeout. rewrite Hsend, Hdec.
    eexists. split; [apply lookup_store_eq; simpl; exact Hlt |].
    unfold Application.Call. simpl.
    destruct (ctx app) eqn:E; [| contradiction]. simpl. rewrite ?E.
    repeat split. discriminate.
  - intros resp retApp Hsend Hdec. unfold Agent.doApply. rewrite Hp. cbv zeta.
    fold msg. fold timeout. rewrite Hsend, Hdec.
    eexists. split; [apply lookup_store_eq; simpl; exact Hlt |].
    unfold Application.Call. simpl.
    destruct (ctx app) eqn:E; [| contradiction]. simpl. rewrite ?E.
    repeat split.
Qed.

Lemma C4_doApply_failure_witness :
  exists app',
    heap (Agent.doApply Scenario.timeout Scenario.once 0%nat) !! 0%nat = Some app'
    /\ Status app' = Failed
    /\ Reason app' = "failed to access cloud Application center: timeout to get response"
    /\ ctx app' = Some Fired.
Proof.
  assert (Hp : exists app, heap Scenario.once !! 0%nat = Some app).
  { eexists. vm_compute. reflexivity. }
  destruct Hp as (app & Hp).
  assert (Hr : reachable "edge-node-1" Scenario.once)
    by exact (reach_Generate _ _ (Scenario.request "" "Bearer abc") Get INil INil
                (reach_new _)).
  destruct (C4_doApply_failure "edge-node-1" Scenario.timeout Scenario.once 0%nat
              app (errorString "timeout to get response") Hr Hp) as (H & _).
  destruct (H eq_refl) as (app' & H1 & H2 & H3 & H4 & _).
  exists app'. split; [exact H1 |]. split; [exact H2 |].
  split; [exact H3 | exact H4].
Defined.








(** ** The Center on a watch *)












(** * Further properties of the code *)

(** ** The identifier is never empty *)

Lemma be_bytes_length n x : length (SHA256.be_bytes n x) = n.
Proof. induction n as [| n IH]; simpl; [reflexivity | by rewrite IH]. Qed.

Lemma round_length s kw : length s = 8%nat -> length (SHA256.round s kw) = 8%nat.
Proof.
  intros H. do 9 (destruct s as [| ? s]; try discriminate). reflexivity.
Qed.

Lemma rounds_length l s :
  length s = 8%nat -> length (fold_left SHA256.round l s) = 8%nat.
Proof.
  revert s. induction l as [| kw l IH]; intros s H; simpl; [exact H |].
  apply IH. by apply round_length.
Qed.

Lemma compress_length h block :
  length h = 8%nat -> length (SHA256.compress h block) = 8%nat.
Proof.
  intros H. unfold SHA256.compress. cbv zeta.
  rewrite length_map, length_combine, rounds_length by exact H. rewrite H.
  reflexivity.
Qed.

Lemma blocks_length n h bs :
  length h = 8%nat -> length (SHA256.blocks n h bs) = 8%nat.
Proof.
  revert h bs. induction n as [| n IH]; intros h bs H; simpl; [exact H |].
  apply IH. by apply compress_length.
Qed.

Lemma flat_be_bytes_length ws :
  length (flat_map (SHA256.be_bytes 4) ws) = (4 * length ws)%nat.
Proof.
  induction ws as [| w ws IH]; [reflexivity |].
  change (flat_map (SHA256.be_bytes 4) (w :: ws))
    with (SHA256.be_bytes 4 w ++ flat_map (SHA256.be_bytes 4) ws)%list.
  rewrite length_app, be_bytes_length, IH. simpl. lia.
Qed.

Lemma Sum256_length data : length (SHA256.Sum256 data) = 32%nat.
Proof.
  unfold SHA256.Sum256. cbv zeta.
  rewrite flat_be_bytes_length, blocks_length; reflexivity.
Qed.

Lemma hex_length bs : String.length (SHA256.hex bs) = (2 * length bs)%nat.
Proof.
  induction bs as [| b bs IH]; [reflexivity |].
  simpl. rewrite IH. lia.
Qed.

Lemma digest_length a : String.length (Application.digest a) = 64%nat.
Proof.
  unfold Application.digest. by rewrite hex_length, Sum256_length.
Qed.

Lemma digest_nonempty a : Application.digest a <> "".
Proof.
  intros H. pose proof (digest_length a) as L. rewrite H in L. discriminate.
Qed.

(** X1.  The identifier that [Identifier] returns is never empty, and has 64
    characters when it is computed; after the call the [ID] is what was
    returned, a second call returns the same and writes nothing, and any
    Application that carries this [ID], whatever its other fields have become,
    gets it back from [Identifier]. *)
Theorem X1_Identifier_memoized (a : Application) :
  (Application.Identifier a).2 <> ""
  /\ (ID a = "" -> String.length (Application.Identifier a).2 = 64%nat)
  /\ ID (Application.Identifier a).1 = (Application.Identifier a).2
  /\ Application.Identifier (Application.Identifier a).1 = Application.Identifier a
  /\ (forall b, ID b = (Application.Identifier a).2 ->
                Application.Identifier b = (b, (Application.Identifier a).2)).
Proof.
  destruct (Application.Identifier a) as [a1 id] eqn:Hid. simpl.
  destruct (Identifier_spec _ _ _ Hid)
    as (Hi & _ & _ & _ & _ & _ & _ & _ & _ & Hmemo & Hfresh).
  assert (Hne : id <> "").
  { destruct (decide (ID a = "")) as [E | E].
    - rewrite (Hfresh E). apply digest_nonempty.
    - rewrite (Hmemo E) in Hi. congruence. }
  split; [exact Hne |]. split.
  { intros E. rewrite (Hfresh E). apply digest_length. }
  split; [exact Hi |]. split.
  - rewrite Identifier_memo by congruence. by rewrite Hi.
  - intros b Hb. rewrite Identifier_memo by congruence. by rewrite Hb.
Qed.

Lemma X1_Identifier_memoized_witness :
  String.length (Application.Identifier Scenario.app_ab).2 = 64%nat.
Proof.
  destruct (X1_Identifier_memoized Scenario.app_ab) as (_ & H & _).
  exact (H eq_refl).
Defined.

(** ** Releasing references *)

Lemma Close_positive t a :
  0 < count a < 2 ^ 64 ->
  count (Application.Close t a) = count a - 1
  /\ timestamp (Application.Close t a) = t
  /\ Status (Application.Close t a)
     = (if count a =? 1 then Completed else Status a).
Proof.
  intros Hr. unfold Application.Close.
  destruct (Z.eqb_spec (count a) 0) as [E | E]; [lia |]. cbv zeta.
  assert (Hm : uint64 (count a - 1) = count a - 1)
    by (unfold uint64; apply Z.mod_small; lia).
  simpl. rewrite Hm.
  destruct (Z.eqb_spec (count a - 1) 0) as [E1 | E1];
    destruct (Z.eqb_spec (count a) 1) as [E2 | E2]; try lia;
    simpl; rewrite ?Hm; repeat split; lia.
Qed.

Lemma Close_all ts : forall a,
  Z.of_nat (length ts) <= count a < 2 ^ 64 ->
  let a' := fold_left (fun x t => Application.Close t x) ts a in
  count a' = count a - Z.of_nat (length ts)
  /\ (Z.of_nat (length ts) < count a -> Status a' = Status a)
  /\ (ts <> [] -> Z.of_nat (length ts) = count a -> Status a' = Completed)
  /\ (ts <> [] -> Some (timestamp a') = last ts).
Proof.
  induction ts as [| t ts IH]; intros a Hr; cbv zeta.
  - simpl. repeat split; try lia; try contradiction; reflexivity.
  - simpl fold_left. simpl length in *.
    destruct (Close_positive t a) as (Hc & Ht & Hs); [lia |].
    destruct (IH (Application.Close t a)) as (IHc & IHs & IHd & IHt);
      [lia |].
    rewrite IHc, Hc. split; [lia |]. split; [| split].
    + intros Hlt. rewrite IHs by lia. rewrite Hs.
      destruct (Z.eqb_spec (count a) 1); [lia | reflexivity].
    + intros _ Hall. destruct ts as [| t' ts'].
      * simpl. rewrite Hs. simpl in Hall.
        destruct (Z.eqb_spec (count a) 1); [reflexivity | lia].
      * apply IHd; [discriminate | lia].
    + intros _. destruct ts as [| t' ts'].
      * simpl. by rewrite Ht.
      * rewrite IHt by discriminate. reflexivity.
Qed.

(** X2.  An Application held [n] times (count [n] > 0) and closed by each
    holder in turn: before the last [Close] the count has gone down by one a
    [Close] and Status is what it was; after the last one the count is zero,
    Status is Completed, the timestamp is the time of that last [Close], and
    any further [Close] changes nothing. *)
Theorem X2_Close_balance (ts : list Time) (a : Application) :
  ts <> [] ->
  count a = Z.of_nat (length ts) ->
  count a < 2 ^ 64 ->
  let closed k := fold_left (fun x t => Application.Close t x) (take k ts) a in
  (forall k, (k < length ts)%nat ->
     count (closed k) = count a - Z.of_nat k /\ Status (closed k) = Status a)
  /\ count (closed (length ts)) = 0
  /\ Status (closed (length ts)) = Completed
  /\ Some (timestamp (closed (length ts))) = last ts
  /\ (forall t, Application.Close t (closed (length ts)) = closed (length ts)).
Proof.
  intros Hne Hc Hr closed.
  assert (Hfull : closed (length ts)
                  = fold_left (fun x t => Application.Close t x) ts a)
    by (unfold closed; by rewrite firstn_all).
  destruct (Close_all ts a) as (H1 & _ & H3 & H4); [lia |].
  cbv zeta in *. rewrite Hfull.
  split.
  - intros k Hk. unfold closed.
    destruct (Close_all (take k ts) a) as (K1 & K2 & _);
      [rewrite length_take; lia |].
    cbv zeta in *. rewrite length_take in K1, K2.
    replace (k `min` length ts)%nat with k in * by lia.
    split; [exact K1 | apply K2; lia].
  - split; [lia |]. split; [by apply H3 |]. split; [by apply H4 |].
    intros t. unfold Application.Close at 1.
    rewrite H1, Hc, Z.sub_diag. reflexivity.
Qed.

Lemma X2_Close_balance_witness :
  count (Application.Close 20 (Application.Close 10
           (Application.add Scenario.app_ab))) = 0
  /\ Status (Application.Close 20 (Application.Close 10
               (Application.add Scenario.app_ab))) = Completed.
Proof.
  assert (Hne : [10; 20] <> ([] : list Time)) by discriminate.
  destruct (X2_Close_balance [10; 20] (Application.add Scenario.app_ab) Hne
              eq_refl) as (_ & H0 & Hs & _); [vm_compute; reflexivity |].
  split; [exact H0 | exact Hs].
Defined.

(** ** What holds in every state of the Agent *)

Lemma store_cells (P : Application -> Prop) p new a :
  (forall q app, heap a !! q = Some app -> P app) ->
  P new ->
  forall q app, heap (store p new a) !! q = Some app -> P app.
Proof.
  intros Hall Hnew q app Hq. simpl in Hq.
  apply list_lookup_insert_Some in Hq as [(-> & <- & _) | [_ Hq]]; eauto.
Qed.

Lemma uint64_range x : 0 <= uint64 x < 2 ^ 64.
Proof. unfold uint64. apply Z.mod_pos_bound. lia. Qed.

Lemma cell_ok_add n x : cell_ok n x -> cell_ok n (Application.add x).
Proof.
  intros (_ & Hn & Hc). split; [apply uint64_range | by split].
Qed.

Lemma cell_ok_Close n t x : cell_ok n x -> cell_ok n (Application.Close t x).
Proof.
  intros (Hr & Hn & Hc). unfold Application.Close.
  destruct (count x =? 0); [by split |]. cbv zeta.
  destruct (_ =? 0); (split; [apply uint64_range | by split]).
Qed.

Lemma cell_ok_frame n x y :
  cell_ok n x -> count y = count x -> Nodename y = Nodename x ->
  ctx y <> None -> cell_ok n y.
Proof. intros (Hr & Hn & _) Hc Hnn Hctx. unfold cell_ok. by rewrite Hc, Hnn. Qed.

Lemma reachable_cells n a :
  reachable n a -> forall q app, heap a !! q = Some app -> cell_ok n app.
Proof.
  induction 1 as [| a c verb option obj Hr IH | a p _ IH | tr a p _ IH
                  | since a _ IH | now p a _ IH]; intros q app Hq.
  - simpl in Hq. by rewrite lookup_nil in Hq.
  - destruct (Agent.Generate a c verb option obj) as [a' [r | e]] eqn:HG;
      simpl in Hq.
    2: { rewrite (Generate_error _ _ _ _ _ _ _ HG) in Hq. eauto. }
    destruct (Generate_inv _ _ _ _ _ _ _ HG)
      as (key & info & app0 & _ & _ & _ & Hnew & Hcase). simpl in Hcase.
    destruct (newApplication_spec _ _ _ _ _ _ _ _ Hnew)
      as (token & _ & _ & _ & _ & Hnn & _ & _ & _ & _ & _ & Hctx & Hcount).
    assert (IH1 : forall q app,
              (heap a ++ [set_ID (Application.digest app0) app0])%list !! q
              = Some app -> cell_ok n app).
    { intros q' x Hx. apply lookup_app_Some in Hx as [Hx | [_ Hx]]; [eauto |].
      apply list_lookup_singleton_Some in Hx as [_ <-].
      split; [simpl; rewrite Hcount; lia |].
      split; [simpl; rewrite Hnn; by apply reachable_nodeName |].
      simpl. by rewrite Hctx. }
    destruct (Applications a !! Application.digest app0) as [q' |].
    + destruct Hcase as [_ Hcase].
      destruct ((heap a ++ [set_ID (Application.digest app0) app0])%list !! q')
        as [stored |] eqn:Hs; subst a'.
      * eapply (store_cells (cell_ok n)); [| | exact Hq]; [exact IH1 |].
        apply cell_ok_add. by apply (IH1 q').
      * eauto.
    + destruct Hcase as [_ ->]. eauto.
  - revert Hq. unfold Agent.Apply_begin.
    destruct (heap a !! p) as [arg |] eqn:Hp; [| by eauto].
    destruct (Application.Identifier arg) as [arg' id] eqn:Hid.
    destruct (Identifier_spec _ _ _ Hid)
      as (_ & Hf & _ & _ & _ & _ & Hc & Hcnt & _).
    assert (Hnn : Nodename arg' = Nodename arg).
    { revert Hid. unfold Application.Identifier.
      destruct (negb _); by intros [= <- _]. }
    assert (IH1 : forall q app, heap (store p arg' a) !! q = Some app ->
                                cell_ok n app).
    { apply store_cells; [exact IH |].
      apply (cell_ok_frame n arg); eauto. rewrite Hc.
      by destruct (IH _ _ Hp) as (_ & _ & ?). }
    destruct (Applications _ !! id) as [q' |]; [| by eauto].
    destruct (heap _ !! q') as [x |] eqn:Hx; [| by eauto].
    repeat (match goal with |- context [if ?b then _ else _] => destruct b end);
      simpl; try (by eauto).
    intros Hq.
    eapply (store_cells (cell_ok n) q' (Application.Reset x) (store p arg' a));
      [exact IH1 | | exact Hq].
    apply (cell_ok_frame n x); [by eapply IH1 | reflexivity | reflexivity
                               | discriminate].
  - revert Hq. unfold Agent.doApply.
    destruct (heap a !! p) as [app0 |] eqn:Hp; [| by eauto].
    cbv zeta. intros Hq.
    eapply (store_cells (cell_ok n)); [| | exact Hq]; [exact IH |].
    pose proof (IH _ _ Hp) as (Hr0 & Hn0 & Hc0).
    apply (cell_ok_frame n app0); [by eapply IH | | |];
      unfold Application.Call;
      destruct (SendSync tr _ _ _) as [resp | err];
      try destruct (msgToApplication _ _); simpl;
      destruct (ctx app0); try contradiction; try reflexivity; discriminate.
  - eauto.
  - revert Hq. unfold Close_at.
    destruct (heap a !! p) as [x |] eqn:Hp; [| by eauto].
    intros Hq. eapply (store_cells (cell_ok n)); [| | exact Hq]; [exact IH |].
    apply cell_ok_Close. by eapply IH.
Qed.

(** X3.  In every state the Agent of node [n] goes through: each allocated
    Application has a count within [uint64], belongs to node [n] and has a
    context; each table entry points to an allocated Application whose [ID] is
    the entry's key, a 64-character digest of its identity-forming fields; no
    Application is in the table under two keys; and the Agent still is the one
    of node [n]. *)
Theorem X3_Agent_invariants n a :
  reachable n a ->
  (forall q app, heap a !! q = Some app ->
     0 <= count app < 2 ^ 64 /\ Nodename app = n /\ ctx app <> None)
  /\ (forall k p, Applications a !! k = Some p ->
        exists app, heap a !! p = Some app /\ ID app = k
                    /\ k = Application.digest app
                    /\ String.length k = 64%nat)
  /\ (forall k1 k2 p, Applications a !! k1 = Some p ->
                      Applications a !! k2 = Some p -> k1 = k2)
  /\ nodeName a = n.
Proof.
  intros Hr. pose proof (reachable_table_ok n a Hr) as Hok.
  split; [exact (reachable_cells n a Hr) |]. split; [| split].
  - intros k p Hk. destruct (Hok k p Hk) as (app & Hp & Hid & Hd).
    exists app. repeat split; try done. rewrite Hd. apply digest_length.
  - intros k1 k2 p H1 H2.
    destruct (Hok k1 p H1) as (x1 & Hx1 & I1 & _).
    destruct (Hok k2 p H2) as (x2 & Hx2 & I2 & _). congruence.
  - by apply reachable_nodeName.
Qed.

Lemma X3_Agent_invariants_witness :
  exists app, heap Scenario.failed !! 0%nat = Some app
              /\ 0 <= count app < 2 ^ 64 /\ Nodename app = "edge-node-1"
              /\ ctx app <> None.
Proof.
  assert (Hp : exists app, heap Scenario.failed !! 0%nat = Some app)
    by (eexists; vm_compute; reflexivity).
  destruct Hp as (app & Hp). exists app. split; [exact Hp |].
  assert (Hr : reachable "edge-node-1" Scenario.failed).
  { apply reach_doApply.
    exact (reach_Generate _ _ (Scenario.request "" "Bearer abc") Get INil INil
             (reach_new _)). }
  destruct (X3_Agent_invariants _ _ Hr) as (H & _). exact (H _ _ Hp).
Defined.

(** ** Generate: refusals and first registration *)

Lemma Generate_succeeds a c verb option obj key info token :
  KeyFuncReq c = Ok key ->
  RequestInfoFrom c = Some info ->
  IsResourceRequest info = true ->
  AuthorizationValue c = AuthString token ->
  exists a' p, Agent.Generate a c verb option obj = (a', Ok p).
Proof.
  intros Hkey Hinfo Hres Hauth. unfold Agent.Generate.
  rewrite Hkey, Hinfo, Hres. simpl.
  unfold Application.newApplication. rewrite Hauth.
  match goal with |- context [Application.Identifier ?x] =>
    destruct (Application.Identifier x) as [app id] end.
  simpl. destruct (Applications a !! id) as [q |]; [| eauto].
  destruct (_ !! q); eauto.
Qed.

(** X4.  [Generate] fails exactly when the key cannot be derived from the
    context, or the context has no request info, or the request is not a
    resource request, or the value under the authorization key is not a
    string; the key's error comes first; and a failed [Generate] leaves the
    Agent as it was: nothing is allocated and nothing is registered. *)
Theorem X4_Generate_refusals a c verb option obj :
  ((exists e, (Agent.Generate a c verb option obj).2 = Err e)
   <-> (exists e, KeyFuncReq c = Err e)
       \/ RequestInfoFrom c = None
       \/ (exists info, RequestInfoFrom c = Some info
                        /\ IsResourceRequest info = false)
       \/ (exists ty, AuthorizationValue c = AuthOther ty))
  /\ (forall e, KeyFuncReq c = Err e ->
                (Agent.Generate a c verb option obj).2 = Err e)
  /\ (forall e, (Agent.Generate a c verb option obj).2 = Err e ->
                (Agent.Generate a c verb option obj).1 = a).
Proof.
  split; [| split].
  - split.
    + intros [e He].
      destruct (KeyFuncReq c) as [key | e'] eqn:Hkey; [| left; eauto].
      destruct (RequestInfoFrom c) as [info |] eqn:Hinfo; [| right; left; eauto].
      destruct (IsResourceRequest info) eqn:Hres;
        [| right; right; left; eauto].
      destruct (AuthorizationValue c) as [token | ty] eqn:Hauth;
        [| do 3 right; eauto].
      destruct (Generate_succeeds a c verb option obj _ _ _ Hkey Hinfo Hres Hauth)
        as (a' & p & HG).
      rewrite HG in He. discriminate.
    + unfold Agent.Generate, Application.newApplication.
      intros [[e He] | [He | [(i & Hi & He) | [ty He]]]].
      * rewrite He. eauto.
      * destruct (KeyFuncReq c); [| eauto]. rewrite He. eauto.
      * destruct (KeyFuncReq c); [| eauto]. rewrite Hi, He. simpl. eauto.
      * destruct (KeyFuncReq c); [| eauto].
        destruct (RequestInfoFrom c) as [info |]; [| eauto].
        destruct (IsResourceRequest info); simpl; [| eauto].
        rewrite He. eauto.
  - intros e He. unfold Agent.Generate. by rewrite He.
  - intros e He.
    destruct (Agent.Generate a c verb option obj) as [a' r] eqn:HG.
    simpl in *. subst r. by apply (Generate_error _ _ _ _ _ _ _ HG).
Qed.



(** ** Release, sweep, and what comes after *)

Lemma Sub_ge now t d :
  d <= maxDuration -> minDuration < d -> (d <= Sub now t <-> d <= now - t).
Proof.
  unfold Sub, minDuration, maxDuration. intros H1 H2.
  destruct (Z.ltb_spec (now - t) (- 2 ^ 63));
    [| destruct (Z.ltb_spec (2 ^ 63 - 1) (now - t))]; lia.
Qed.

(** X6.  The last holder of a registered Application closes it at time [t],
    and [GC] runs when at least five minutes have passed.  Then the entry is
    gone from the table while the Application itself still exists, Completed;
    [Apply] on the old pointer fails with the not-registered error and sends
    nothing; and a later [Generate] that registers the same identifier gets a
    newly allocated Application with count one and Status PreApplying, not the
    old one. *)
Theorem X6_swept_application n tr a k p app t now :
  reachable n a ->
  Applications a !! k = Some p ->
  heap a !! p = Some app ->
  count app = 1 ->
  t <> zeroTime ->
  5 * Minute <= now - t ->
  let closed := Application.Close t app in
  let a2 := Agent.GC (fun _ => Since now) (Close_at t p a) in
  Applications a2 !! k = None
  /\ heap a2 !! p = Some closed
  /\ Status closed = Completed
  /\ Agent.Apply tr a2 p
     = (a2, Returned (Some (errorString
              ("application " ++ Application.String closed
                 ++ " has not been registered to agent"))))
  /\ (forall c verb option obj a3 p',
        Agent.Generate a2 c verb option obj = (a3, Ok p') ->
        Applications a3 !! k = Some p' ->
        p' <> p
        /\ exists app', heap a3 !! p' = Some app'
                        /\ count app' = 1 /\ Status app' = PreApplying).
Proof.
  intros Hr Hk Hp Hc Ht Hold closed a2.
  pose proof (reachable_table_ok n a Hr) as Hok.
  destruct (Hok _ _ Hk) as (x & Hx & Hid & Hd).
  assert (x = app) by congruence. subst x.
  destruct (Close_last t app Hc) as [Hc0 Hts]. fold closed in Hc0, Hts.
  assert (Hlt : (p < length (heap a))%nat) by (by eapply lookup_lt_Some).
  assert (Hp1 : heap (Close_at t p a) !! p = Some closed).
  { unfold Close_at. rewrite Hp. by apply lookup_store_eq. }
  assert (Hk1 : Applications (Close_at t p a) !! k = Some p).
  { unfold Close_at. by rewrite Hp. }
  assert (Hgone : Applications a2 !! k = None).
  { unfold a2. rewrite GC_lookup, Hk1. unfold Agent.GC_deletes.
    rewrite Hp1, LastCloseTime_idle, Hts by exact Hc0.
    unfold IsZero, zeroTime in *. destruct (Z.eqb_spec t 0); [contradiction |].
    simpl. unfold Since.
    assert (5 * Minute <= Sub now t).
    { apply Sub_ge; [unfold maxDuration, Minute; lia
                    | unfold minDuration, Minute; lia | done]. }
    destruct (Z.leb_spec (5 * Minute) (Sub now t)); [reflexivity | lia]. }
  assert (Hp2 : heap a2 !! p = Some closed) by exact Hp1.
  assert (Hs : Status closed = Completed).
  { unfold closed, Application.Close. rewrite Hc. simpl. rewrite Hc.
    reflexivity. }
  assert (Hidc : ID closed = k).
  { destruct (Close_identity t app) as [Hi _]. fold closed in Hi. congruence. }
  assert (Hne : k <> "").
  { rewrite Hd. apply digest_nonempty. }
  split; [exact Hgone |]. split; [exact Hp2 |]. split; [exact Hs |]. split.
  - unfold Agent.Apply, Agent.Apply_begin. rewrite Hp2.
    rewrite Identifier_memo by congruence.
    rewrite (store_same _ _ _ Hp2), Hidc, Hgone. reflexivity.
  - intros c verb option obj a3 p' HG Hk3.
    destruct (Generate_inv _ _ _ _ _ _ _ HG)
      as (key & info & app0 & _ & _ & _ & Hnew & Hcase).
    cbv zeta in Hcase.
    destruct (newApplication_spec _ _ _ _ _ _ _ _ Hnew)
      as (token & _ & _ & _ & _ & _ & _ & _ & _ & _ & St & _ & Hcount).
    destruct (Applications a2 !! Application.digest app0) as [q |] eqn:Hq.
    + exfalso. destruct Hcase as [-> Hcase].
      assert (Applications a3 = Applications a2).
      { revert Hcase. destruct (heap _ !! q); by intros ->. }
      congruence.
    + destruct Hcase as [-> ->]. split.
      * apply lookup_lt_Some in Hp2. lia.
      * eexists. split.
        { simpl. rewrite lookup_app_r, Nat.sub_diag by lia. reflexivity. }
        simpl. by rewrite Hcount, St.
Qed.

Lemma X6_swept_application_witness :
  Applications (Agent.GC (fun _ => Since (1000 + 5 * Minute))
                  (Close_at 1000 0%nat Scenario.once))
    !! "e400be7293bb9a29d6fae892eff6a96bb9c527c6aceaa3d19b659241f467ecfa" = None.
Proof.
  assert (Hr : reachable "edge-node-1" Scenario.once)
    by exact (reach_Generate _ _ (Scenario.request "" "Bearer abc") Get INil INil
                (reach_new _)).
  assert (H : exists app, heap Scenario.once !! 0%nat = Some app /\ count app = 1)
    by (eexists; split; vm_compute; reflexivity).
  destruct H as (app & Hp & Hc).
  assert (Hk : Applications Scenario.once
                 !! "e400be7293bb9a29d6fae892eff6a96bb9c527c6aceaa3d19b659241f467ecfa"
               = Some 0%nat) by (vm_compute; reflexivity).
  assert (Ht : (1000 : Time) <> zeroTime) by discriminate.
  assert (Hold : 5 * Minute <= 1000 + 5 * Minute - 1000) by lia.
  destruct (X6_swept_application "edge-node-1" Scenario.approving
              _ _ _ _ _ _ Hr Hk Hp Hc Ht Hold) as (Hgone & _).
  exact Hgone.
Defined.

(** X7.  A sweep keeps the table within what it was, touches no Application,
    sends nothing and keeps the node name; and a second sweep made with the
    same clock readings changes nothing more. *)
Theorem X7_GC_sweeps since (a : Agent) :
  Applications (Agent.GC since a) ⊆ Applications a
  /\ heap (Agent.GC since a) = heap a
  /\ sent (Agent.GC since a) = sent a
  /\ nodeName (Agent.GC since a) = nodeName a
  /\ Agent.GC since (Agent.GC since a) = Agent.GC since a.
Proof.
  split; [apply map_filter_subseteq |].
  split; [reflexivity |]. split; [reflexivity |]. split; [reflexivity |].
  assert (H : Applications (Agent.GC since (Agent.GC since a))
              = Applications (Agent.GC since a)).
  { apply map_eq. intros k. rewrite GC_lookup. rewrite (GC_lookup since a k).
    destruct (Applications a !! k) as [p |]; [| reflexivity].
    change (Agent.GC_deletes since (Agent.GC since a) k)
      with (Agent.GC_deletes since a k).
    destruct (Agent.GC_deletes since a k p) eqn:E; [reflexivity |].
    by rewrite E. }
  transitivity (set_Applications
                  (Applications (Agent.GC since (Agent.GC since a)))
                  (Agent.GC since a)); [reflexivity |].
  rewrite H. reflexivity.
Qed.

(** ** What Apply returns *)




(** X9.  A send cycle touches only the outcome of the Application it runs
    for: [doApply] hands exactly one message to the transport, routed from
    the metaserver to the dynamic controller with the Application InApplying
    as its body, and leaves the Application's reference count, timestamp,
    [ID] and identity-forming fields, every other Application, the table and
    the node name as they were; so a cycle never changes what [GC] will do. *)
Theorem X9_doApply_frame tr (a : Agent) p app :
  heap a !! p = Some app ->
  exists app',
    heap (Agent.doApply tr a p) !! p = Some app'
    /\ count app' = count app
    /\ timestamp app' = timestamp app
    /\ Application.LastCloseTime app' = Application.LastCloseTime app
    /\ ID app' = ID app
    /\ Application.fingerprint app' = Application.fingerprint app
    /\ (forall q, q <> p -> heap (Agent.doApply tr a p) !! q = heap a !! q)
    /\ length (heap (Agent.doApply tr a p)) = length (heap a)
    /\ Applications (Agent.doApply tr a p) = Applications a
    /\ nodeName (Agent.doApply tr a p) = nodeName a
    /\ (forall since, Applications (Agent.GC since (Agent.doApply tr a p))
                      = Applications (Agent.GC since a))
    /\ exists m,
         sent (Agent.doApply tr a p) = (sent a ++ [m])%list
         /\ Body m = ContentApp (set_Status InApplying app)
         /\ Source m = MetaServerSource
         /\ Group m = DynamicControllerModuleGroup
         /\ ParentID m = "".
Proof.
  intros Hp.
  assert (Hlt : (p < length (heap a))%nat) by (by eapply lookup_lt_Some).
  assert (Hshape : exists app',
            Agent.doApply tr a p
            = store p app' (set_sent (sent a ++ [Agent.applyMessage
                                        (set_Status InApplying app)]) a)
            /\ count app' = count app /\ timestamp app' = timestamp app
            /\ ID app' = ID app
            /\ Application.fingerprint app' = Application.fingerprint app).
  { unfold Agent.doApply. rewrite Hp. cbv zeta. eexists. split; [reflexivity |].
    unfold Application.Call.
    destruct (SendSync tr _ _ _) as [resp | err];
      [destruct (msgToApplication _ _) |]; simpl; destruct (ctx app);
      repeat split. }
  destruct Hshape as (app' & Heq & Hc & Ht & Hi & Hf).
  assert (Hp' : heap (Agent.doApply tr a p) !! p = Some app').
  { rewrite Heq. by apply lookup_store_eq. }
  assert (Hother : forall q, q <> p ->
            heap (Agent.doApply tr a p) !! q = heap a !! q).
  { intros q Hq. rewrite Heq. rewrite lookup_store_ne by done. reflexivity. }
  exists app'. split; [exact Hp' |]. split; [exact Hc |]. split; [exact Ht |].
  split. { unfold Application.LastCloseTime. by rewrite Hc, Ht. }
  split; [exact Hi |]. split; [exact Hf |]. split; [exact Hother |].
  split. { rewrite Heq. simpl. by rewrite length_insert. }
  split. { by rewrite Heq. }
  split. { by rewrite Heq. }
  split.
  - intros since. apply map_eq. intros k. rewrite !GC_lookup.
    replace (Applications (Agent.doApply tr a p)) with (Applications a)
      by (by rewrite Heq).
    destruct (Applications a !! k) as [q |]; [| reflexivity].
    replace (Agent.GC_deletes since (Agent.doApply tr a p) k q)
      with (Agent.GC_deletes since a k q); [reflexivity |].
    unfold Agent.GC_deletes. destruct (decide (q = p)) as [-> | Hne].
    + rewrite Hp, Hp'. unfold Application.LastCloseTime. by rewrite Hc, Ht.
    + by rewrite Hother.
  - eexists. rewrite Heq. split; [reflexivity |]. repeat split.
Qed.

Lemma X9_doApply_frame_witness :
  exists app',
    heap (Agent.doApply Scenario.timeout Scenario.once 0%nat) !! 0%nat = Some app'
    /\ count app' = 1.
Proof.
  assert (Hp : exists app, heap Scenario.once !! 0%nat = Some app /\ count app = 1)
    by (eexists; split; vm_compute; reflexivity).
  destruct Hp as (app & Hp & Hc).
  destruct (X9_doApply_frame Scenario.timeout _ _ _ Hp) as (app' & H1 & H2 & _).
  exists app'. split; [exact H1 | by rewrite H2].
Defined.

(** ** The bearer token *)

Lemma cut_spec sep s :
  match cut sep s with
  | (h, None) => s = h /\ ~ In sep (list_ascii_of_string h)
  | (h, Some t) => s = h ++ String sep t /\ ~ In sep (list_ascii_of_string h)
  end.
Proof.
  induction s as [| c s IH]; simpl; [tauto |].
  destruct (Ascii.eqb_spec c sep) as [-> | Hne].
  - simpl. tauto.
  - destruct (cut sep s) as [h [t |]]; simpl; destruct IH as [-> Hn];
      (split; [reflexivity | intros [? | ?]; [congruence | contradiction]]).
Qed.

Lemma cut_app sep h t :
  ~ In sep (list_ascii_of_string h) -> cut sep (h ++ String sep t) = (h, Some t).
Proof.
  induction h as [| c h IH]; simpl; intros Hn.
  - by rewrite Ascii.eqb_refl.
  - destruct (Ascii.eqb_spec c sep) as [-> | Hne]; [tauto |].
    rewrite IH by tauto. reflexivity.
Qed.

Lemma cut_none sep s :
  ~ In sep (list_ascii_of_string s) -> cut sep s = (s, None).
Proof.
  induction s as [| c s IH]; simpl; intros Hn; [reflexivity |].
  destruct (Ascii.eqb_spec c sep) as [-> | Hne]; [tauto |].
  rewrite IH by tauto. reflexivity.
Qed.

Lemma lower_space c : lower c = " "%char -> c = " "%char.
Proof.
  destruct c as [[] [] [] [] [] [] [] []]; vm_compute; congruence.
Qed.

Lemma ToLower_space s :
  In " "%char (list_ascii_of_string s) ->
  In " "%char (list_ascii_of_string (ToLower s)).
Proof.
  induction s as [| c s IH]; simpl; [tauto |].
  intros [-> | H]; [by left | right; by apply IH].
Qed.

Lemma bearer_no_space scheme :
  ToLower scheme = "bearer" -> ~ In " "%char (list_ascii_of_string scheme).
Proof.
  intros H Hin. apply ToLower_space in Hin. rewrite H in Hin.
  simpl in Hin. repeat (destruct Hin as [Hin | Hin]; [discriminate |]).
  exact Hin.
Qed.

Lemma string_length_zero s : (String.length s <=? 0)%nat = true <-> s = "".
Proof. destruct s; simpl; split; intros; congruence. Qed.

(** X10.  [generateNewConfig] accepts a header exactly of the form
    [scheme token] or [scheme token rest], the parts separated by single
    spaces, where [scheme] is ["bearer"] in any mix of upper and lower case
    and [token] is not empty and has no space; the bearer token it returns is
    that [token].  In particular: a header without a space, an empty token
    (two spaces in a row after the scheme) or another scheme is refused, and
    whatever follows a second space is ignored. *)
Theorem X10_generateNewConfig_accepts (raw bearer : string) :
  Center.generateNewConfig raw = Ok bearer
  <-> bearer <> ""
      /\ ~ In " "%char (list_ascii_of_string bearer)
      /\ exists scheme,
           ToLower scheme = "bearer"
           /\ (raw = scheme ++ " " ++ bearer
               \/ exists rest, raw = scheme ++ " " ++ bearer ++ " " ++ rest).
Proof.
  unfold Center.generateNewConfig. cbv zeta.
  change (SplitN raw " "%char 3)
    with (match cut " "%char raw with
          | (h, None) => [h]
          | (h, Some t) =>
              h :: match cut " "%char t with
                   | (h2, None) => [h2]
                   | (h2, Some t2) => [h2; t2]
                   end
          end).
  split.
  - pose proof (cut_spec " "%char raw) as Hc.
    destruct (cut " "%char raw) as [scheme [tail |]]; [| simpl; discriminate].
    destruct Hc as [-> Hns].
    pose proof (cut_spec " "%char tail) as Hc2.
    destruct (cut " "%char tail) as [tok [rest |]]; destruct Hc2 as [-> Hnt];
      simpl;
      destruct (String.eqb_spec (ToLower scheme) "bearer") as [Hb | Hb];
      simpl; try discriminate;
      destruct (tok) as [| c tok'] eqn:Etok; simpl; try discriminate;
      intros [= <-]; (split; [discriminate |]); (split; [exact Hnt |]);
      exists scheme; (split; [exact Hb |]).
    + right. exists rest. reflexivity.
    + left. reflexivity.
  - intros (Hne & Hnt & scheme & Hb & [-> | [rest ->]]);
      pose proof (bearer_no_space scheme Hb) as Hns.
    + change (scheme ++ " " ++ bearer) with (scheme ++ String " "%char bearer).
      rewrite (cut_app _ _ _ Hns), (cut_none _ _ Hnt). simpl.
      rewrite Hb. simpl.
      destruct bearer; [contradiction | reflexivity].
    + change (scheme ++ " " ++ bearer ++ " " ++ rest)
        with (scheme ++ String " "%char (bearer ++ String " "%char rest)).
      rewrite (cut_app _ _ _ Hns), (cut_app _ _ _ Hnt). simpl.
      rewrite Hb. simpl.
      destruct bearer; [contradiction | reflexivity].
Qed.

Lemma X10_generateNewConfig_accepts_witness :
  Center.generateNewConfig "BeArEr abc.def ignored words" = Ok "abc.def".
Proof.
  apply X10_generateNewConfig_accepts.
  split; [discriminate |]. split.
  - simpl. intros H. repeat (destruct H as [H | H]; [discriminate |]). exact H.
  - exists "BeArEr". split; [reflexivity |]. right.
    exists "ignored words". reflexivity.
Defined.

(** ** The Center on the other verbs *)

(** One step of a walk through [ProcessApplication]: a case on the next
    verb test or on the next answer of the environment. *)
Ltac center_step :=
  match goal with
  | |- context [String.eqb ?a ?b] => destruct (String.eqb a b)
  | |- context [Unmarshal_ListOptions ?c ?x] =>
      destruct (Unmarshal_ListOptions c x)
  | |- context [Unmarshal_GetOptions ?c ?x] =>
      destruct (Unmarshal_GetOptions c x)
  | |- context [Unmarshal_CreateOptions ?c ?x] =>
      destruct (Unmarshal_CreateOptions c x)
  | |- context [Unmarshal_DeleteOptions ?c ?x] =>
      destruct (Unmarshal_DeleteOptions c x) as [[?|]|]
  | |- context [Unmarshal_UpdateOptions ?c ?x] =>
      destruct (Unmarshal_UpdateOptions c x)
  | |- context [Unmarshal_PatchInfo ?c ?x] =>
      destruct (Unmarshal_PatchInfo c x)
  | |- context [Unmarshal_Unstructured ?c ?x] =>
      destruct (Unmarshal_Unstructured c x)
  | |- context [Backend ?a ?b ?c] => destruct (Backend a b c)
  end.

(** X11.  [ProcessApplication] on a verb other than watch.  When the client
    cannot be made (feature gate on and a malformed authorization header) it
    fails with that error before any call to the outside.  Otherwise it makes
    no access review and registers no listener, calls the backend at most
    once, and every backend call goes through the one client chosen for the
    Application: the shared default client when the feature gate is off, a
    client bound to the caller's bearer token when it is on.  The Application
    comes out with Status InProcessing and is otherwise as it came in. *)
Theorem X11_other_verbs cl app :
  Verb app <> Watch ->
  (Center.ProcessApplication cl app).1 = set_Status InProcessing app
  /\ (forall e, Center.createKubeClient cl app = Err e ->
                (Center.ProcessApplication cl app).2 = ([], Fail e))
  /\ (forall c, Center.createKubeClient cl app = Ok c ->
        reviews (Center.ProcessApplication cl app).2.1 = 0%nat
        /\ registrations (Center.ProcessApplication cl app).2.1 = 0%nat
        /\ (backendCalls (Center.ProcessApplication cl app).2.1 <= 1)%nat
        /\ (forall ev, In ev (Center.ProcessApplication cl app).2.1 ->
                       exists call, ev = EvBackend c call)
        /\ (RequireAuthorization cl = false -> c = DefaultClient)
        /\ (RequireAuthorization cl = true ->
            exists bearer, Center.generateNewConfig (Token app) = Ok bearer
                           /\ c = TokenClient bearer)).
Proof.
  intros Hv.
  assert (Hw : String.eqb (Verb (set_Status InProcessing app)) Watch = false)
    by (by apply String.eqb_neq).
  assert (Hck : Center.createKubeClient cl (set_Status InProcessing app)
                = Center.createKubeClient cl app) by reflexivity.
  unfold Center.ProcessApplication.
  destruct (ParseKey cl (Key (set_Status InProcessing app)))
    as [[gvr ns] name].
  rewrite Hw, Hck. cbn [negb fst snd].
  split; [reflexivity |]. split.
  - intros e He. rewrite He. reflexivity.
  - intros c Hc. rewrite Hc.
    assert (Hclient : (RequireAuthorization cl = false -> c = DefaultClient)
              /\ (RequireAuthorization cl = true ->
                  exists bearer,
                    Center.generateNewConfig (Token app) = Ok bearer
                    /\ c = TokenClient bearer)).
    { revert Hc. unfold Center.createKubeClient.
      destruct (RequireAuthorization cl); simpl.
      - destruct (Center.generateNewConfig (Token app)) as [b |];
          [| discriminate].
        intros [= <-]. split; [discriminate | eauto].
      - intros [= <-]. split; [reflexivity | discriminate]. }
    unfold reviews, registrations, backendCalls, Center.OptionTo,
      Center.ReqBodyTo, Center.backend, bind, lift, ret, fail, call, panic.
    repeat (center_step; simpl);
      (split; [reflexivity |]); (split; [reflexivity |]);
      (split; [simpl; lia |]); (split; [| exact Hclient]);
      intros ev Hin; simpl in Hin;
      repeat (destruct Hin as [<- | Hin]; [eauto |]); destruct Hin.
Qed.

Lemma X11_other_verbs_witness :
  reviews (Center.ProcessApplication
             (Cases.cloud true (Ok (mkObject [])) (Cases.request Get "Bearer abc"))
             (Cases.request Get "Bearer abc")).2.1 = 0%nat
  /\ (backendCalls (Center.ProcessApplication
             (Cases.cloud true (Ok (mkObject [])) (Cases.request Get "Bearer abc"))
             (Cases.request Get "Bearer abc")).2.1 <= 1)%nat.
Proof.
  assert (Hv : Verb (Cases.request Get "Bearer abc") <> Watch) by discriminate.
  destruct (X11_other_verbs
              (Cases.cloud true (Ok (mkObject [])) (Cases.request Get "Bearer abc"))
              _ Hv) as (_ & _ & H).
  destruct (H (TokenClient "abc") ltac:(vm_compute; reflexivity))
    as (Hr & _ & Hb & _).
  split; [exact Hr | exact Hb].
Defined.





(** ** Replies *)







(** ** From the edge to the cloud and back *)



(** ** The device-twin communication worker *)

Section CommWorker.

Context {Msg : Type} (GetID GetParentID : Msg -> string)
  (ContentString : Msg -> option string) (nm : Names) (newUUID : string)
  (nowUnixNano : Z) (Marshal_GetDetailNode : GetDetailNode -> result string)
  (BuildModelMessage :
     dtmanager.DTContext Msg -> string -> string -> string -> string -> string
     -> Msg)
  (HeartBeat : dtmanager.DTContext Msg -> string -> string -> option error).

Local Abbreviation DTContext := (dtmanager.DTContext Msg).
Local Abbreviation State := (dtmanager.State Msg).
Local Abbreviation ConfirmMap := (dtmanager.ConfirmMap Msg).
Local Abbreviation NodeName := (dtmanager.NodeName Msg).
Local Abbreviation set_State := (dtmanager.set_State Msg).
Local Abbreviation set_ConfirmMap := (dtmanager.set_ConfirmMap Msg).
Local Abbreviation AnyMessage := (dtmanager.AnyMessage Msg).
Local Abbreviation IsDTMessage := (dtmanager.IsDTMessage Msg).
Local Abbreviation GotDTMessage := (dtmanager.GotDTMessage Msg).
Local Abbreviation FromReceiver := (dtmanager.FromReceiver Msg).
Local Abbreviation After60s := (dtmanager.After60s Msg).
Local Abbreviation Action := (dtmanager.Action Msg).
Local Abbreviation DTMsg := (dtmanager.DTMsg Msg).
Local Abbreviation pending := (dtmanager.pending Msg nm).
Local Abbreviation confirm_ok := (dtmanager.confirm_ok Msg GetID nm).
Local Abbreviation dealSendToEdge := (dtmanager.dealSendToEdge Msg nm).
Local Abbreviation dealSendToCloud := (dtmanager.dealSendToCloud Msg GetID nm).
Local Abbreviation detailRequest :=
  (dtmanager.detailRequest Msg GetID GetParentID nm newUUID nowUnixNano
     Marshal_GetDetailNode BuildModelMessage).
Local Abbreviation dealLifeCycle :=
  (dtmanager.dealLifeCycle Msg GetID GetParentID ContentString nm newUUID
     nowUnixNano Marshal_GetDetailNode BuildModelMessage).
Local Abbreviation dealConfirm := (dtmanager.dealConfirm Msg GetParentID).
Local Abbreviation ActionCallBack :=
  (dtmanager.ActionCallBack Msg GetID GetParentID ContentString nm newUUID
     nowUnixNano Marshal_GetDetailNode BuildModelMessage).
Local Abbreviation redo :=
  (dtmanager.redo Msg GetID GetParentID ContentString nm newUUID nowUnixNano
     Marshal_GetDetailNode BuildModelMessage).
Local Abbreviation checkConfirm :=
  (dtmanager.checkConfirm Msg GetID GetParentID ContentString nm newUUID
     nowUnixNano Marshal_GetDetailNode BuildModelMessage).
Local Abbreviation Start_turn :=
  (dtmanager.Start_turn Msg GetID GetParentID ContentString nm newUUID
     nowUnixNano Marshal_GetDetailNode BuildModelMessage HeartBeat).
Local Abbreviation Start :=
  (dtmanager.Start Msg GetID GetParentID ContentString nm newUUID nowUnixNano
     Marshal_GetDetailNode BuildModelMessage HeartBeat).

(** What a step keeps, from a context [c] to a context [c'] with the
    messages [sends]. *)
Local Abbreviation kept c c' sends :=
  (confirm_ok (ConfirmMap c')
   /\ NodeName c' = NodeName c
   /\ (State c' = State c \/ State c' = Connected nm
       \/ State c' = Disconnected nm)
   /\ Forall (fun s : string * Msg =>
                s.1 = HubModule nm \/ s.1 = EventHubModule nm) sends).

Ltac callback E :=
  lazymatch type of E with
  | @lookup _ _ _ _ ?k ?m = ?r =>
      match goal with
      | |- context [@lookup ?K ?V ?M ?I k m] =>
          replace (@lookup K V M I k m) with r by (symmetry; exact E)
      end
  end.

Ltac kept_split := refine (conj _ (conj _ (conj _ _))); simpl; auto.

Lemma set_ConfirmMap_id (c : DTContext) : set_ConfirmMap (ConfirmMap c) c = c.
Proof. by destruct c. Qed.

Lemma set_State_id (c : DTContext) : set_State (State c) c = c.
Proof. by destruct c. Qed.

Lemma confirm_ok_insert m message :
  confirm_ok m ->
  confirm_ok (<[GetID message := IsDTMessage (pending message)]> m).
Proof.
  intros Hm k v [[<- <-] | [_ Hk]]%lookup_insert_Some; [by eexists | by apply Hm].
Qed.

Lemma confirm_ok_delete m k : confirm_ok m -> confirm_ok (delete k m).
Proof. intros Hm k' v [_ Hk]%lookup_delete_Some. by apply Hm. Qed.

Lemma callback_cases a fn :
  ActionCallBack !! a = Some fn ->
  fn = dealConfirm \/ fn = dealLifeCycle \/ fn = dealSendToEdge
  \/ fn = dealSendToCloud.
Proof.
  unfold dtmanager.ActionCallBack.
  rewrite !lookup_insert_Some, lookup_empty.
  intros [[_ <-] | [_ [[_ <-] | [_ [[_ <-] | [_ [[_ <-] | [_ [=]]]]]]]]]; tauto.
Qed.

Lemma callback_SendToCloud :
  SendToCloud nm <> SendToEdge nm ->
  SendToCloud nm <> LifeCycle nm ->
  SendToCloud nm <> Confirm nm ->
  ActionCallBack !! SendToCloud nm = Some dealSendToCloud.
Proof.
  intros H1 H2 H3. unfold dtmanager.ActionCallBack.
  rewrite !lookup_insert_ne by congruence. apply lookup_insert_eq.
Qed.

Lemma callback_Confirm : ActionCallBack !! Confirm nm = Some dealConfirm.
Proof. apply lookup_insert_eq. Qed.

Lemma detailRequest_kept (c : DTContext) c' sends e :
  confirm_ok (ConfirmMap c) ->
  detailRequest c = (c', sends, e) ->
  confirm_ok (ConfirmMap c') /\ NodeName c' = NodeName c /\ State c' = State c
  /\ Forall (fun s : string * Msg =>
               s.1 = HubModule nm \/ s.1 = EventHubModule nm) sends.
Proof.
  intros Hc. unfold dtmanager.detailRequest.
  destruct (Marshal_GetDetailNode _) as [j | err]; cbv zeta.
  - destruct (negb _); intros [= <- <- <-]; simpl;
      (repeat split; [| by repeat constructor; left]);
      [by apply confirm_ok_insert | exact Hc].
  - intros [= <- <- <-]. repeat split; [exact Hc | constructor].
Qed.

Lemma callback_kept fn (c : DTContext) r msg c' sends e :
  fn = dealConfirm \/ fn = dealLifeCycle \/ fn = dealSendToEdge
  \/ fn = dealSendToCloud ->
  confirm_ok (ConfirmMap c) ->
  fn c r msg = (c', sends, e) ->
  kept c c' sends.
Proof.
  intros [-> | [-> | [-> | ->]]] Hc.
  - unfold dtmanager.dealConfirm. destruct msg as [value | ty];
      intros [= <- <- <-]; simpl; kept_split.
    all: try by apply confirm_ok_delete.
  - unfold dtmanager.dealLifeCycle. destruct msg as [message | ty];
      [| intros [= <- <- <-]; kept_split].
    cbv zeta. destruct (String.eqb _ (CloudConnected nm)).
    + destruct (String.eqb (State c) (Disconnected nm)).
      * destruct (detailRequest c) as [[c1 s1] [err |]] eqn:E;
          destruct (detailRequest_kept _ _ _ _ Hc E) as (H1 & H2 & H3 & H4);
          intros [= <- <- <-]; simpl; kept_split.
      * intros [= <- <- <-]; simpl; kept_split.
    + destruct (String.eqb _ (CloudDisconnected nm));
        intros [= <- <- <-]; simpl; kept_split.
  - unfold dtmanager.dealSendToEdge. destruct msg as [message | ty];
      intros [= <- <- <-]; kept_split.
  - unfold dtmanager.dealSendToCloud.
    destruct (String.eqb (State c) (Disconnected nm));
      [intros [= <- <- <-]; kept_split |].
    destruct msg as [message | ty]; intros [= <- <- <-]; simpl;
      kept_split.
    by apply confirm_ok_insert.
Qed.

Lemma kept_trans (c c1 c2 : DTContext) (s1 s2 : list (string * Msg)) :
  kept c c1 s1 -> kept c1 c2 s2 -> kept c c2 (s1 ++ s2)%list.
Proof.
  intros (H1 & H2 & H3 & H4) (K1 & K2 & K3 & K4).
  split; [exact K1 |]. split; [congruence |]. split.
  - destruct K3 as [K3 | K3]; [rewrite K3; exact H3 | tauto].
  - by apply Forall_app.
Qed.

Lemma redo_kept (c : DTContext) s entry c' s' :
  confirm_ok (ConfirmMap c) ->
  redo (c, s) entry = (c', s') ->
  exists sends, s' = (s ++ sends)%list /\ kept c c' sends.
Proof.
  intros Hc. unfold dtmanager.redo.
  destruct entry.2 as [dtmsg |];
    [| intros [= <- <-]; exists []; rewrite app_nil_r; kept_split].
  destruct (ActionCallBack !! Action dtmsg) as [fn |] eqn:E;
    [| intros [= <- <-]; exists []; rewrite app_nil_r; kept_split].
  simpl. destruct (fn c _ _) as [[c1 s1] e1] eqn:F. intros [= <- <-].
  exists s1. split; [reflexivity |].
  eapply callback_kept; [by eapply callback_cases | exact Hc | exact F].
Qed.

Lemma fold_redo_kept l (c : DTContext) s c' s' :
  confirm_ok (ConfirmMap c) ->
  fold_left redo l (c, s) = (c', s') ->
  exists sends, s' = (s ++ sends)%list /\ kept c c' sends.
Proof.
  revert c s. induction l as [| entry l IH]; intros c s Hc; simpl.
  - intros [= <- <-]. exists []. rewrite app_nil_r. kept_split.
  - destruct (redo (c, s) entry) as [c1 s1] eqn:E.
    destruct (redo_kept _ _ _ _ _ Hc E) as (d1 & -> & K1).
    intros F. destruct (IH _ _ (proj1 K1) F) as (d2 & -> & K2).
    exists (d1 ++ d2)%list. split; [by rewrite app_assoc |].
    by apply (kept_trans c c1 c').
Qed.

Lemma Start_turn_kept group (c : DTContext) sel c' sends running :
  confirm_ok (ConfirmMap c) ->
  Start_turn group c sel = (c', sends, running) ->
  kept c c' sends.
Proof.
  intros Hc. unfold dtmanager.Start_turn.
  destruct sel as [[[d |] |] | | [v |]].
  - destruct (ActionCallBack !! Action d) as [fn |] eqn:E;
      [| intros [= <- <- <-]; kept_split].
    destruct (fn c _ _) as [[c1 s1] e1] eqn:F. intros [= <- <- <-].
    eapply callback_kept; [by eapply callback_cases | exact Hc | exact F].
  - intros [= <- <- <-]; kept_split.
  - intros [= <- <- <-]; kept_split.
  - destruct (checkConfirm c) as [c1 s1] eqn:E. intros [= <- <- <-].
    destruct (fold_redo_kept _ _ _ _ _ Hc E) as (d & -> & K). exact K.
  - destruct (HeartBeat c group v); intros [= <- <- <-]; kept_split.
  - intros [= <- <- <-]; kept_split.
Qed.

(** X17.  What every run of the worker keeps.  From a context whose confirm
    map holds only what was stored for messages sent to the cloud, each under
    the ID of its message, [Start] over any turns of its [select] ends in a
    context whose confirm map is again of that kind; the node name is
    unchanged; the state is the one at the start, [Connected] or
    [Disconnected]; and every message handed to [Send] goes to the hub module
    or to the event-hub module. *)
Theorem X17_worker_invariant group (c : DTContext) turns c' sends running :
  confirm_ok (ConfirmMap c) ->
  Start group c turns = (c', sends, running) ->
  confirm_ok (ConfirmMap c')
  /\ NodeName c' = NodeName c
  /\ (State c' = State c \/ State c' = Connected nm
      \/ State c' = Disconnected nm)
  /\ Forall (fun s : string * Msg =>
               s.1 = HubModule nm \/ s.1 = EventHubModule nm) sends.
Proof.
  revert c c' sends running.
  induction turns as [| sel turns IH]; intros c c' sends running Hc; simpl.
  - intros [= <- <- <-]. repeat split; auto.
  - destruct (Start_turn group c sel) as [[c1 s1] [|]] eqn:E;
      pose proof (Start_turn_kept _ _ _ _ _ _ Hc E) as K1.
    + destruct (Start group c1 turns) as [[c2 s2] r2] eqn:F.
      intros [= <- <- <-].
      apply (kept_trans c c1 c2); [exact K1 |].
      by eapply IH; [apply K1 |].
    + intros [= <- <- <-]. exact K1.
Qed.

Lemma redo_pending (c : DTContext) s k message :
  SendToCloud nm <> SendToEdge nm ->
  SendToCloud nm <> LifeCycle nm ->
  SendToCloud nm <> Confirm nm ->
  ConfirmMap c !! k = Some (IsDTMessage (pending message)) ->
  GetID message = k ->
  redo (c, s) (k, IsDTMessage (pending message))
  = (c, (s ++ if String.eqb (State c) (Disconnected nm) then []
              else [(HubModule nm, message)])%list).
Proof.
  intros H1 H2 H3 Hk Hid. unfold dtmanager.redo.
  cbn [fst snd dtmanager.pending dtmanager.Action dtmanager.DTMsg
       dtmanager.Identity].
  pose proof (callback_SendToCloud H1 H2 H3) as E. callback E.
  unfold dtmanager.dealSendToCloud.
  destruct (String.eqb (State c) (Disconnected nm)); [reflexivity |].
  simpl. rewrite Hid, insert_id by exact Hk.
  by rewrite set_ConfirmMap_id.
Qed.


(** X19.  A message sent to the cloud is pending until it is confirmed.  In a
    state other than [Disconnected], with [SendToCloud] different from the
    other three action names: on a [SendToCloud] DTMessage that carries the
    message [message] the worker sends [message] to the hub module and stores
    it under its ID; a [Confirm] DTMessage whose message has that ID as its
    parent ID then removes that entry and sends nothing more, whatever the
    resource and type of the two DTMessages; and if nothing was stored under
    the ID before, the context is back where it was. *)
Theorem X19_send_then_confirm group (c : DTContext) message reply r1 t1 r2 t2 :
  State c <> Disconnected nm ->
  SendToCloud nm <> SendToEdge nm ->
  SendToCloud nm <> LifeCycle nm ->
  SendToCloud nm <> Confirm nm ->
  GetParentID reply = GetID message ->
  let send := FromReceiver (Some (GotDTMessage
                {| dtmanager.DTMsg := AnyMessage message;
                   dtmanager.Identity := r1;
                   dtmanager.Action := SendToCloud nm;
                   dtmanager.DTType := t1 |})) in
  let confirm := FromReceiver (Some (GotDTMessage
                   {| dtmanager.DTMsg := AnyMessage reply;
                      dtmanager.Identity := r2;
                      dtmanager.Action := Confirm nm;
                      dtmanager.DTType := t2 |})) in
  (exists c1,
     Start group c [send] = (c1, [(HubModule nm, message)], true)
     /\ ConfirmMap c1 !! GetID message = Some (IsDTMessage (pending message))
     /\ forall k, k <> GetID message -> ConfirmMap c1 !! k = ConfirmMap c !! k)
  /\ Start group c [send; confirm]
     = (set_ConfirmMap (delete (GetID message) (ConfirmMap c)) c,
        [(HubModule nm, message)], true)
  /\ (ConfirmMap c !! GetID message = None ->
      Start group c [send; confirm] = (c, [(HubModule nm, message)], true)).
Proof.
  intros Hs H1 H2 H3 Hp send confirm.
  assert (Hsend : Start_turn group c send
            = (set_ConfirmMap (<[GetID message :=
                                   IsDTMessage (pending message)]>
                                 (ConfirmMap c)) c,
               [(HubModule nm, message)], true)).
  { unfold dtmanager.Start_turn, send. simpl.
    pose proof (callback_SendToCloud H1 H2 H3) as E. callback E.
    unfold dtmanager.dealSendToCloud.
    by destruct (String.eqb_spec (State c) (Disconnected nm)). }
  assert (Hboth : Start group c [send; confirm]
            = (set_ConfirmMap (delete (GetID message) (ConfirmMap c)) c,
               [(HubModule nm, message)], true)).
  { unfold dtmanager.Start. rewrite Hsend.
    unfold dtmanager.Start_turn at 1, confirm. simpl.
    pose proof callback_Confirm as E. callback E. unfold dtmanager.dealConfirm. simpl.
    rewrite Hp. unfold dtmanager.set_ConfirmMap. simpl.
    by rewrite delete_insert_eq. }
  split; [| split].
  - eexists. split; [| split].
    + unfold dtmanager.Start. rewrite Hsend. reflexivity.
    + simpl. apply lookup_insert_eq.
    + intros k Hk. simpl. by apply lookup_insert_ne.
  - exact Hboth.
  - intros Hn. rewrite Hboth, delete_id by exact Hn.
    by rewrite set_ConfirmMap_id.
Qed.

(** X20.  While the state is [Disconnected], messages for the cloud are
    dropped, not deferred.  With [SendToCloud] different from the other three
    action names and a confirm map that holds only what was stored for
    messages sent to the cloud: over any turns that are [SendToCloud]
    DTMessages (with a message or with anything else) or the passing of the
    sixty seconds, the worker sends nothing, stores nothing, and stays in its
    loop with its context as it was. *)
Theorem X20_disconnected_drops group (c : DTContext) turns :
  State c = Disconnected nm ->
  SendToCloud nm <> SendToEdge nm ->
  SendToCloud nm <> LifeCycle nm ->
  SendToCloud nm <> Confirm nm ->
  confirm_ok (ConfirmMap c) ->
  Forall (fun sel =>
            sel = After60s
            \/ exists d, sel = FromReceiver (Some (GotDTMessage d))
                         /\ Action d = SendToCloud nm) turns ->
  Start group c turns = (c, [], true).
Proof.
  intros Hs H1 H2 H3 Hc Ht.
  assert (Hcheck : checkConfirm c = (c, [])).
  { unfold dtmanager.checkConfirm.
    assert (Hl : forall e, e ∈ map_to_list (ConfirmMap c) ->
                   ConfirmMap c !! e.1 = Some e.2).
    { intros [k v] He. by apply elem_of_map_to_list. }
    revert Hl. generalize (map_to_list (ConfirmMap c)) as l.
    induction l as [| [k v] l IH]; intros Hl; simpl; [reflexivity |].
    assert (Hk : ConfirmMap c !! k = Some v) by (apply (Hl (k, v)); left).
    destruct (Hc k v Hk) as (message & -> & Hid).
    rewrite (redo_pending c [] k message H1 H2 H3 Hk Hid).
    rewrite Hs, String.eqb_refl. simpl. apply IH.
    intros e He. apply Hl. by right. }
  induction Ht as [| sel turns Hsel _ IH]; [reflexivity |].
  assert (Hturn : Start_turn group c sel = (c, [], true)).
  { destruct Hsel as [-> | (d & -> & Ha)]; unfold dtmanager.Start_turn.
    - by rewrite Hcheck.
    - rewrite Ha. pose proof (callback_SendToCloud H1 H2 H3) as E.
      callback E.
      unfold dtmanager.dealSendToCloud. by rewrite Hs, String.eqb_refl. }
  simpl. rewrite Hturn, IH. reflexivity.
Qed.

(** X21.  The life cycle on a [CloudConnected] message, with [Connected] and
    [Disconnected] different.  If [dealLifeCycle] returns an error, the
    context is untouched, nothing was sent, and the state was and remains
    [Disconnected].  If it returns nil, the state is [Connected], a message
    was sent only if the state was [Disconnected] before, in which case it is
    one message to the hub module, and the same life-cycle message a second
    time, with whatever resource, changes nothing and sends nothing. *)
Theorem X21_life_cycle (c : DTContext) (r r' : string) message c1 s1 e1 :
  Connected nm <> Disconnected nm ->
  ContentString message = Some (CloudConnected nm) ->
  dealLifeCycle c r (AnyMessage message) = (c1, s1, e1) ->
  (forall e, e1 = Some e -> c1 = c /\ s1 = [] /\ State c = Disconnected nm)
  /\ (e1 = None ->
      State c1 = Connected nm
      /\ (State c <> Disconnected nm ->
          s1 = [] /\ c1 = set_State (Connected nm) c)
      /\ (State c = Disconnected nm ->
          exists request, s1 = [(HubModule nm, request)])
      /\ dealLifeCycle c1 r' (AnyMessage message) = (c1, [], None)).
Proof.
  intros Hne Hcontent.
  assert (Hagain : forall c0 : DTContext,
            dealLifeCycle (set_State (Connected nm) c0) r' (AnyMessage message)
            = (set_State (Connected nm) c0, [], None)).
  { intros c0. unfold dtmanager.dealLifeCycle. rewrite Hcontent.
    cbv zeta. rewrite String.eqb_refl. simpl.
    by destruct (String.eqb_spec (Connected nm) (Disconnected nm)). }
  unfold dtmanager.dealLifeCycle at 1. rewrite Hcontent. cbv zeta.
  rewrite String.eqb_refl.
  destruct (String.eqb_spec (State c) (Disconnected nm)) as [Hd | Hd].
  - unfold dtmanager.detailRequest.
    destruct (Marshal_GetDetailNode _) as [j | err]; cbv zeta.
    + intros [= <- <- <-]. split; [discriminate |]. intros _.
      split; [reflexivity |]. split; [intros Hn; by destruct Hn |].
      split; [by eexists | apply Hagain].
    + intros [= <- <- <-]. split; [| discriminate]. by intros e _.
  - intros [= <- <- <-]. split; [discriminate |]. intros _.
    split; [reflexivity |]. split; [by intros _ |].
    split; [intros Hx; by destruct Hd | apply Hagain].
Qed.

End CommWorker.

Lemma waiting_confirm_ok state :
  dtmanager.confirm_ok Cases.DtMsg Cases.dtID Cases.names
    (dtmanager.ConfirmMap Cases.DtMsg (Cases.waiting state)).
Proof.
  intros k v Hk. unfold Cases.waiting in Hk. cbn [dtmanager.ConfirmMap] in Hk.
  apply lookup_insert_Some in Hk as [[<- <-] | [_ Hk]].
  - by exists Cases.update.
  - rewrite lookup_empty in Hk. discriminate.
Qed.

Lemma X17_worker_invariant_witness :
  exists c' sends running,
    Cases.Start (Cases.worker_context "Disconnected") Cases.turns
    = (c', sends, running)
    /\ dtmanager.confirm_ok Cases.DtMsg Cases.dtID Cases.names
         (dtmanager.ConfirmMap Cases.DtMsg c')
    /\ dtmanager.NodeName Cases.DtMsg c' = "edge-node-1"
    /\ (dtmanager.State Cases.DtMsg c' = "Disconnected"
        \/ dtmanager.State Cases.DtMsg c' = "Connected"
        \/ dtmanager.State Cases.DtMsg c' = "Disconnected")
    /\ Forall (fun s : string * Cases.DtMsg =>
                 s.1 = "websocket" \/ s.1 = "eventbus") sends.
Proof.
  destruct (Cases.Start (Cases.worker_context "Disconnected") Cases.turns)
    as [[c' sends] running] eqn:E.
  exists c', sends, running. split; [reflexivity |].
  refine (X17_worker_invariant _ _ _ _ _ _ _ _ _ _ _ _ _ _ _ _ E).
  intros k v Hk. simpl in Hk. rewrite lookup_empty in Hk. discriminate.
Defined.


Lemma X19_send_then_confirm_witness :
  Cases.Start (Cases.worker_context "Connected")
    [Cases.got "SendToCloud" Cases.update; Cases.got "Confirm" Cases.ack]
  = (Cases.worker_context "Connected", [("websocket", Cases.update)], true).
Proof.
  refine (proj2 (proj2
    (X19_send_then_confirm Cases.dtID Cases.dtParentID Cases.dtContent
       Cases.names _ _ _ _ _ _ (Cases.worker_context "Connected")
       Cases.update Cases.ack "twin" "CommModule" "twin" "CommModule"
       _ _ _ _ _)) _);
    [discriminate | discriminate | discriminate | discriminate | reflexivity
    | reflexivity].
Defined.

Lemma X20_disconnected_drops_witness :
  Cases.Start (Cases.waiting "Disconnected")
    [Cases.got "SendToCloud" Cases.up; dtmanager.After60s Cases.DtMsg]
  = (Cases.waiting "Disconnected", [], true).
Proof.
  refine (X20_disconnected_drops Cases.dtID Cases.dtParentID Cases.dtContent
            Cases.names _ _ _ _ _ _ (Cases.waiting "Disconnected") _
            _ _ _ _ _ _);
    [reflexivity | discriminate | discriminate | discriminate
    | apply waiting_confirm_ok |].
  constructor; [right; by eexists | constructor; [by left | constructor]].
Defined.

Lemma X21_life_cycle_witness :
  exists c1 request,
    Cases.dealLifeCycle (Cases.worker_context "Disconnected") "twin"
      (dtmanager.AnyMessage Cases.DtMsg Cases.up)
    = (c1, [("websocket", request)], None)
    /\ dtmanager.State Cases.DtMsg c1 = "Connected"
    /\ Cases.dealLifeCycle c1 "twin" (dtmanager.AnyMessage Cases.DtMsg Cases.up)
       = (c1, [], None).
Proof.
  destruct (Cases.dealLifeCycle (Cases.worker_context "Disconnected") "twin"
              (dtmanager.AnyMessage Cases.DtMsg Cases.up))
    as [[c1 s1] e1] eqn:E.
  assert (He : e1 = None) by (vm_compute in E; congruence).
  destruct (X21_life_cycle Cases.dtID Cases.dtParentID Cases.dtContent
              Cases.names "uuid-1" 1700000000000000000 (fun _ => Ok "{}")
              (fun _ _ _ _ _ _ => Cases.detail)
              (Cases.worker_context "Disconnected")
              "twin" "twin" Cases.up c1 s1 e1)
    as [_ H]; [discriminate | reflexivity | exact E |].
  destruct (H He) as (Hs & _ & Hreq & Hagain).
  destruct (Hreq eq_refl) as [request ->].
  exists c1, request. subst e1. split; [reflexivity |]. split; assumption.
Defined.

(** ** Service files *)

Lemma length_append (a b : string) :
  String.length (a ++ b) = (String.length a + String.length b)%nat.
Proof.
  induction a as [| c a IH]; [reflexivity |].
  change (S (String.length (a ++ b))
          = S (String.length a + String.length b)). by f_equal.
Qed.

Lemma append_assoc (a b c : string) : (a ++ b) ++ c = a ++ (b ++ c).
Proof.
  induction a as [| x a IH]; [reflexivity |].
  change (String x ((a ++ b) ++ c) = String x (a ++ (b ++ c))). by f_equal.
Qed.

Lemma append_inv_tail (s a b : string) : a ++ s = b ++ s -> a = b.
Proof.
  revert b. induction a as [| c a IH]; intros [| d b] H.
  - reflexivity.
  - apply (f_equal String.length) in H.
    change (String.length s = S (String.length (b ++ s))) in H.
    rewrite length_append in H. lia.
  - apply (f_equal String.length) in H.
    change (S (String.length (a ++ s)) = String.length s) in H.
    rewrite length_append in H. lia.
  - change (String c (a ++ s) = String d (b ++ s)) in H.
    injection H as -> H. f_equal. by apply IH.
Qed.

Lemma service_path_inj alp alp' process process' :
  util.RemoveServiceFile alp process = util.RemoveServiceFile alp' process' ->
  alp' = alp /\ process' = process.
Proof.
  destruct alp, alp'; unfold util.RemoveServiceFile; simpl; intros [= H].
  - change (process = process') in H. by subst.
  - change (process ++ ".service" = process' ++ ".service") in H.
    split; [reflexivity |]. symmetry. by eapply append_inv_tail.
Qed.

(** X22.  The service file that is written is the one that is removed, and no
    other process shares it.  [GenerateServiceFile] writes, with mode 0777, to
    the path that [RemoveServiceFile] removes for the same process on the same
    kind of system; and a removal or a write that names this path, on either
    kind of system, is for the same process on the same kind of system. *)
Theorem X22_service_file_path alp process execStartCmd :
  exists path content,
    util.GenerateServiceFile alp process execStartCmd
    = OsWriteFile path content 511
    /\ util.RemoveServiceFile alp process = OsRemove path
    /\ (forall alp' process',
          util.RemoveServiceFile alp' process' = OsRemove path ->
          alp' = alp /\ process' = process)
    /\ (forall alp' process' cmd' content' perm,
          util.GenerateServiceFile alp' process' cmd'
          = OsWriteFile path content' perm ->
          alp' = alp /\ process' = process).
Proof.
  assert (H : exists path content,
            util.GenerateServiceFile alp process execStartCmd
            = OsWriteFile path content 511
            /\ util.RemoveServiceFile alp process = OsRemove path).
  { destruct alp; simpl; by do 2 eexists. }
  destruct H as (path & content & Hg & Hr). exists path, content.
  split; [exact Hg |]. split; [exact Hr |]. split.
  - intros alp' process' H. apply service_path_inj. by rewrite Hr, H.
  - intros alp' process' cmd' content' perm H. apply service_path_inj.
    rewrite Hr. destruct alp'; simpl in *; by injection H as <- _ _.
Qed.

(** ** keadm gettoken *)

Lemma list_byte_of_string_app a b :
  list_byte_of_string (a ++ b)
  = (list_byte_of_string a ++ list_byte_of_string b)%list.
Proof.
  induction a as [| c a IH]; simpl; [reflexivity |].
  unfold list_byte_of_string in *. simpl. by rewrite IH.
Qed.

Lemma string_of_list_byte_app a b :
  string_of_list_byte (a ++ b)
  = string_of_list_byte a ++ string_of_list_byte b.
Proof.
  induction a as [| c a IH]; simpl; [reflexivity |].
  unfold string_of_list_byte in *. simpl. by rewrite IH.
Qed.

(** The first of the at most two parts. *)
Lemma SplitN_first sep s : nth 0 (SplitN s sep 2) "" = (cut sep s).1.
Proof. simpl. by destruct (cut sep s) as [h [t |]]. Qed.

Lemma cut_first_app sep s t :
  (cut sep ((cut sep s).1 ++ String sep t)).1 = (cut sep s).1.
Proof.
  pose proof (cut_spec sep s) as H.
  destruct (cut sep s) as [h [t' |]]; simpl; destruct H as [_ Hn];
    by rewrite cut_app.
Qed.

Lemma wrapToken_wraps w token cakey options :
  User options <> "" \/ GettokenGroup options <> "" ->
  gettoken.wrapToken w token cakey options
  = (list_byte_of_string
       ((cut "." (string_of_list_byte token)).1 ++ "."
        ++ (SignedString w
              {| exp := nowUnix w + 7200; claimUser := User options;
                 claimGroup := GettokenGroup options |} cakey).1),
     (gettoken.generateToken w cakey (User options)
        (GettokenGroup options)).2).
Proof.
  intros H. unfold gettoken.wrapToken.
  assert (Hb : negb (String.eqb (User options) "")
               || negb (String.eqb (GettokenGroup options) "") = true).
  { destruct (String.eqb_spec (User options) "");
      destruct (String.eqb_spec (GettokenGroup options) ""); simpl; tauto. }
  rewrite Hb, SplitN_first. unfold gettoken.generateToken.
  change (nowUnix w + 2 * 3600) with (nowUnix w + 7200).
  destruct (SignedString w _ cakey) as [jwt [err |]]; cbn [fst snd];
    by rewrite <- list_byte_of_string_app, append_assoc.
Qed.

Lemma wrapToken_plain w token cakey options :
  User options = "" -> GettokenGroup options = "" ->
  gettoken.wrapToken w token cakey options = (token, []).
Proof. intros Hu Hg. unfold gettoken.wrapToken. by rewrite Hu, Hg. Qed.

(** X23.  [wrapToken] keeps the CA hash.  Without user and group the token
    comes back as it is and nothing is printed.  With one of them, the result
    is the part of the token before its first dot (the whole token, if it has
    none), a dot, and the string that [SignedString] returned for the claims
    with the user, the group and an expiry two hours after the clock, signed
    with the CA key, also when signing failed.  Either way, the part before
    the first dot is the same in the result as in the token, and wrapping the
    result again, with the same clock and signer, gives the same result and
    the same output. *)
Theorem X23_wrapToken_keeps_hash w token cakey options :
  let first b := nth 0 (SplitN (string_of_list_byte b) "."%char 2) "" in
  let wrapped := gettoken.wrapToken w token cakey options in
  (User options = "" -> GettokenGroup options = "" -> wrapped = (token, []))
  /\ (User options <> "" \/ GettokenGroup options <> "" ->
      wrapped.1
      = list_byte_of_string
          (first token ++ "."
           ++ (SignedString w
                 {| exp := nowUnix w + 7200; claimUser := User options;
                    claimGroup := GettokenGroup options |} cakey).1))
  /\ first wrapped.1 = first token
  /\ gettoken.wrapToken w wrapped.1 cakey options = wrapped.
Proof.
  intros first wrapped. subst first wrapped. cbv beta.
  rewrite !SplitN_first.
  split; [apply wrapToken_plain |].
  split; [intros H; by rewrite wrapToken_wraps |].
  destruct (String.eqb_spec (User options) "") as [Hu | Hu];
    [destruct (String.eqb_spec (GettokenGroup options) "") as [Hg | Hg] |].
  - rewrite !wrapToken_plain by assumption. done.
  - rewrite !(wrapToken_wraps w _ cakey options) by tauto. cbn [fst].
    rewrite string_of_list_byte_of_string.
    match goal with
    | |- context ["." ++ ?j] => change ("." ++ j) with (String "."%char j)
    end.
    by rewrite cut_first_app.
  - rewrite !(wrapToken_wraps w _ cakey options) by tauto. cbn [fst].
    rewrite string_of_list_byte_of_string.
    match goal with
    | |- context ["." ++ ?j] => change ("." ++ j) with (String "."%char j)
    end.
    by rewrite cut_first_app.
Qed.

Lemma X23_wrapToken_keeps_hash_witness :
  (gettoken.wrapToken Cases.keadm Cases.token (list_byte_of_string "key")
     (Cases.options "alice" "")).1
  = list_byte_of_string "cafe01.jwt(alice,)"
  /\ gettoken.wrapToken Cases.keadm (list_byte_of_string "cafe01.jwt(alice,)")
       (list_byte_of_string "key") (Cases.options "alice" "")
     = (list_byte_of_string "cafe01.jwt(alice,)", []).
Proof.
  pose proof (X23_wrapToken_keeps_hash Cases.keadm Cases.token
                (list_byte_of_string "key") (Cases.options "alice" "")) as H.
  cbv zeta in H. destruct H as (_ & H2 & _ & H4).
  assert (Hw : (gettoken.wrapToken Cases.keadm Cases.token
                  (list_byte_of_string "key") (Cases.options "alice" "")).1
               = list_byte_of_string "cafe01.jwt(alice,)").
  { rewrite H2 by (left; discriminate). vm_compute. reflexivity. }
  split; [exact Hw |]. rewrite Hw in H4. rewrite H4.
  vm_compute. reflexivity.
Defined.


